(** * Magic Mirror: the GitHub operations of [src/github.ts]

    A shallow embedding of the six exported functions of [src/github.ts]
    ([createFailureIssue], [addComment], [updatePR], [getRequiredChecks],
    [mergePR], [getOwners]) and the properties the specification states
    about them.

    The functions are [async]; every [await] is a blocking call from the
    function's point of view, so a function is a sequential program in a
    state-and-exception monad.  The state holds the heap of [PendingPR]
    objects (they are mutated in place), the state of the GitHub host
    behind the client, the state of the database, and the log of the calls
    made to both. *)

From Stdlib Require Import ZArith String Ascii List Bool Lia DecimalString.
From stdpp Require Import gmap strings list.

Set Warnings "-register-all".

Open Scope string_scope.
Open Scope Z_scope.

(** ** Strings *)

(** [s.includes(sub)]. *)
Fixpoint includes (sub s : string) : bool :=
  if String.prefix sub s then true
  else match s with
       | EmptyString => false
       | String _ s' => includes sub s'
       end.

(** The line feed of the template literals. *)
Definition LF : string := String (ascii_of_nat 10) EmptyString.

(** [`${n}`] for an integral number. *)
Definition string_of_number (n : Z) : string :=
  NilZero.string_of_int (Z.to_int n).

(** [arr.join(sep)] on an array of numbers. *)
Definition join_numbers (sep : string) (l : list Z) : string :=
  String.concat sep (map string_of_number l).

(** ** JavaScript values

    What a variable of type [any] can hold, as far as this module looks at
    it: the values [yaml.load] and the content endpoint produce, and the
    values that are thrown.  Numbers are the integers (pull-request and
    issue numbers, status codes). *)
Module Js.

Inductive value : Type :=
| Undefined
| Null
| Bool (b : bool)
| Num (n : Z)
| Str (s : string)
| Arr (elems : list value)
| Obj (props : list (string * value))
| Err (name message : string).

(** [if (v)]. *)
Definition truthy (v : value) : bool :=
  match v with
  | Undefined | Null => false
  | Bool b => b
  | Num n => negb (n =? 0)
  | Str s => negb (String.eqb s "")
  | Arr _ | Obj _ | Err _ _ => true
  end.

(** [typeof v]. *)
Definition typeof (v : value) : string :=
  match v with
  | Undefined => "undefined"
  | Null => "object"
  | Bool _ => "boolean"
  | Num _ => "number"
  | Str _ => "string"
  | Arr _ | Obj _ | Err _ _ => "object"
  end.

(** [Array.isArray(v)]. *)
Definition isArray (v : value) : bool :=
  match v with Arr _ => true | _ => false end.

(** [Error.prototype.toString]. *)
Definition error_toString (name message : string) : string :=
  if String.eqb name "" then message
  else if String.eqb message "" then name
  else name +:+ ": " +:+ message.

(** The string conversion of [`${v}`] and of ["..." + v]. *)
Fixpoint toString (v : value) : string :=
  match v with
  | Undefined => "undefined"
  | Null => "null"
  | Bool true => "true"
  | Bool false => "false"
  | Num n => string_of_number n
  | Str s => s
  | Arr elems =>
      String.concat ","
        (map (fun e => match e with
                       | Undefined | Null => ""
                       | _ => toString e
                       end) elems)
  | Obj _ => "[object Object]"
  | Err name message => error_toString name message
  end.

(** Own property lookup on a property list (first binding wins). *)
Fixpoint assoc (k : string) (props : list (string * value)) : option value :=
  match props with
  | [] => None
  | (k', v) :: rest => if String.eqb k k' then Some v else assoc k rest
  end.

(** [k in v] for a key that is neither an index nor ["length"]: [None]
    is the [TypeError] that [in] raises on a primitive. *)
Definition has (k : string) (v : value) : option bool :=
  match v with
  | Obj props => Some (match assoc k props with Some _ => true | None => false end)
  | Arr _ => Some false
  | Err _ _ => Some (String.eqb k "name" || String.eqb k "message")%bool
  | Undefined | Null | Bool _ | Num _ | Str _ => None
  end.

(** [v.k] on a value that is not [undefined] or [null]. *)
Definition get (k : string) (v : value) : value :=
  match v with
  | Obj props => default Undefined (assoc k props)
  | Err name message =>
      if String.eqb k "name" then Str name
      else if String.eqb k "message" then Str message
      else Undefined
  | _ => Undefined
  end.

Definition TypeError (message : string) : value := Err "TypeError" message.

End Js.

(** ** Results and the monad of the [async] functions *)

(** A settled promise: fulfilled with a value or rejected with what was
    thrown. *)
Inductive Result (A : Type) : Type :=
| Ok (a : A)
| Throw (e : Js.value).
Arguments Ok {A} a.
Arguments Throw {A} e.

(** ** The records of [./db]

    [src/github.ts] imports [Database], [PendingPR] and [PRAction] from
    [./db], which is not part of the source tree. *)
Module Db.

(** Modelled from the spec: the enumeration [PRAction] of [./db], with the
    three states of the specification's data model. *)
Inductive PRAction : Type := Pending | Merged | Blocked.

(** Modelled from the spec: the repository reference of [./db], an
    organization and a repository name. *)
Record Repo : Type := { organization : string; name : string }.

(** Modelled from the spec: the interface [PendingPR] of [./db], with the
    fields of the specification's data model, which are the fields
    [mergePR] reads and writes.  [prID] and [githubIssue] are optional. *)
Record PendingPR : Type := {
  repo : Repo;
  upstreamRepo : Repo;
  branch : string;
  upstreamPRIDs : list Z;
  upstreamAuthors : list string;
  prID : option Z;
  githubIssue : option Z;
  action : PRAction;
}.

(** [pendingPR.githubIssue = issueID]. *)
Definition set_githubIssue (issueID : Z) (r : PendingPR) : PendingPR :=
  {| repo := repo r; upstreamRepo := upstreamRepo r; branch := branch r;
     upstreamPRIDs := upstreamPRIDs r; upstreamAuthors := upstreamAuthors r;
     prID := prID r; githubIssue := Some issueID; action := action r |}.

(** [pendingPR.action = a]. *)
Definition set_action (a : PRAction) (r : PendingPR) : PendingPR :=
  {| repo := repo r; upstreamRepo := upstreamRepo r; branch := branch r;
     upstreamPRIDs := upstreamPRIDs r; upstreamAuthors := upstreamAuthors r;
     prID := prID r; githubIssue := githubIssue r; action := a |}.

Definition is_blocked (r : PendingPR) : bool :=
  match action r with Blocked => true | _ => false end.

(** The invariant of the data model: a blocked record carries its
    tracking issue. *)
Definition blocked_has_issue (r : PendingPR) : bool :=
  if is_blocked r
  then match githubIssue r with Some _ => true | None => false end
  else true.

(** The class [Database] of [./db] is a parameter: all [mergePR] asks of
    it is [setPendingPR], a promise that settles with no value or
    rejects. *)
Class Database (D : Type) : Type := {
  setPendingPR : PendingPR -> D -> Result unit * D;
}.

End Db.

(** ** The GitHub client

    The parameter objects of the [client.*] calls carry the fields the
    source passes; the responses carry the fields it reads. *)
Module Octokit.

(** The envelope of every response: the payload is under [data]. *)
Record Response (A : Type) : Type := {
  status : Z;
  url : string;
  headers : list (string * string);
  data : A;
}.
Arguments status {A} _.
Arguments url {A} _.
Arguments headers {A} _.
Arguments data {A} _.

(** The response object as the JavaScript value it is, for the places
    where the source inspects it with [in], [typeof] and
    [Array.isArray]. *)
Definition to_js (r : Response Js.value) : Js.value :=
  Js.Obj [("status", Js.Num (status r));
          ("url", Js.Str (url r));
          ("headers", Js.Obj (map (fun kv => (fst kv, Js.Str (snd kv))) (headers r)));
          ("data", data r)].

Module IssuesCreate.
Record params : Type := {
  owner : string; repo : string; title : string; body : string;
  assignees : option (list string);
}.
Record payload : Type := { number : Z }.
End IssuesCreate.

Module IssuesCreateComment.
Record params : Type := {
  owner : string; repo : string; issue_number : Z; body : string;
}.
End IssuesCreateComment.

Module PullsGet.
Record params : Type := { owner : string; repo : string; pull_number : Z }.
Record user : Type := { login : string }.
(** [body] is [string | null]; [assignees] is optional and nullable. *)
Record payload : Type := {
  body : option string;
  assignees : option (list user);
}.
End PullsGet.

Module PullsUpdate.
Record params : Type := {
  owner : string; repo : string; pull_number : Z; body : string;
  assignees : list string;
}.
End PullsUpdate.

Module PullsMerge.
(** [pull_number] is [pendingPR.prID as number]: absent when the
    record has no pull request. *)
Record params : Type := {
  owner : string; repo : string; pull_number : option Z;
  merge_method : string; sha : string;
}.
End PullsMerge.

Module ReposGetBranch.
Record params : Type := { owner : string; repo : string; branch : string }.
Record status_checks : Type := { contexts : list string }.
(** [enabled] and [required_status_checks] are optional. *)
Record protection_t : Type := {
  enabled : option bool;
  required_status_checks : option status_checks;
}.
Record payload : Type := { protection : protection_t }.
End ReposGetBranch.

Module ReposGetContent.
Record params : Type := {
  owner : string; repo : string; path : string; ref : string;
  mediaType_format : string;
}.
End ReposGetContent.

(** The endpoints used by the module, over a host state [H]. *)
Class Client (H : Type) : Type := {
  issues_create :
    IssuesCreate.params -> H -> Result (Response IssuesCreate.payload) * H;
  issues_createComment :
    IssuesCreateComment.params -> H -> Result (Response unit) * H;
  pulls_get :
    PullsGet.params -> H -> Result (Response PullsGet.payload) * H;
  pulls_update :
    PullsUpdate.params -> H -> Result (Response unit) * H;
  pulls_merge :
    PullsMerge.params -> H -> Result (Response unit) * H;
  repos_getBranch :
    ReposGetBranch.params -> H -> Result (Response ReposGetBranch.payload) * H;
  repos_getContent :
    ReposGetContent.params -> H -> Result (Response Js.value) * H;
}.

End Octokit.

Import Octokit.

(** ** The world *)

(** A call made to the host or to the database, with its arguments. *)
Inductive Call : Type :=
| CallIssuesCreate (p : IssuesCreate.params)
| CallIssuesCreateComment (p : IssuesCreateComment.params)
| CallPullsGet (p : PullsGet.params)
| CallPullsUpdate (p : PullsUpdate.params)
| CallPullsMerge (p : PullsMerge.params)
| CallReposGetBranch (p : ReposGetBranch.params)
| CallReposGetContent (p : ReposGetContent.params)
| CallSetPendingPR (r : Db.PendingPR).

(** The heap maps a reference (a [positive]) to the [PendingPR] object it
    points to. *)
Record World (H D : Type) : Type := {
  heap : gmap positive Db.PendingPR;
  host : H;
  store : D;
  trace : list Call;
}.
Arguments heap {H D} _.
Arguments host {H D} _.
Arguments store {H D} _.
Arguments trace {H D} _.

Definition is_merge (c : Call) : bool :=
  match c with CallPullsMerge _ => true | _ => false end.
Definition is_update (c : Call) : bool :=
  match c with CallPullsUpdate _ => true | _ => false end.
Definition is_store_write (c : Call) : bool :=
  match c with CallSetPendingPR _ => true | _ => false end.

(** How many calls of a kind the log holds. *)
Definition count (f : Call -> bool) (t : list Call) : nat :=
  length (List.filter f t).

(** ** The libraries behind [getOwners]

    [Buffer.from(content, "base64").toString("utf-8")] never throws;
    [yaml.load] throws a [YAMLException] on a malformed document. *)
Class Codec : Type := {
  base64_utf8 : string -> string;
  yaml_load : string -> Result Js.value;
}.

(** ** [Set<string>]

    A JavaScript [Set] keeps its elements in insertion order and never
    holds an element twice. *)
Module JsSet.

Definition t : Type := list string.

Definition empty : t := [].

(** [s.add(x)]. *)
Definition add (x : string) (s : t) : t :=
  if existsb (String.eqb x) s then s else (s ++ [x])%list.

(** [new Set(iterable)]. *)
Definition from_list (l : list string) : t :=
  fold_left (fun s x => add x s) l empty.

(** [s.has(x)]. *)
Definition has (x : string) (s : t) : bool := existsb (String.eqb x) s.

(** [s.size]. *)
Definition size (s : t) : nat := length s.

End JsSet.

(** ** The monad *)

Section Monad.
Context {H D : Type}.

Definition M (A : Type) : Type := World H D -> Result A * World H D.

Definition ret {A} (a : A) : M A := fun w => (Ok a, w).

Definition throw {A} (e : Js.value) : M A := fun w => (Throw e, w).

Definition bind {A B} (m : M A) (k : A -> M B) : M B :=
  fun w =>
    match m w with
    | (Ok a, w') => k a w'
    | (Throw e, w') => (Throw e, w')
    end.

(** [try { m } catch (err) { handler(err) }]. *)
Definition try_catch {A} (m : M A) (handler : Js.value -> M A) : M A :=
  fun w =>
    match m w with
    | (Ok a, w') => (Ok a, w')
    | (Throw e, w') => handler e w'
    end.

(** [await client.endpoint(params)]: the call is logged and the host
    moves on. *)
Definition request {A} (c : Call) (endpoint : H -> Result A * H) : M A :=
  fun w =>
    let '(r, h') := endpoint (host w) in
    (r, {| heap := heap w; host := h'; store := store w;
           trace := (trace w ++ [c])%list |}).

(** [await db.method(args)]. *)
Definition query {A} (c : Call) (method : D -> Result A * D) : M A :=
  fun w =>
    let '(r, d') := method (store w) in
    (r, {| heap := heap w; host := host w; store := d';
           trace := (trace w ++ [c])%list |}).

(** Reading the object behind a reference. *)
Definition deref (p : positive) : M Db.PendingPR :=
  fun w =>
    match heap w !! p with
    | Some r => (Ok r, w)
    | None => (Throw (Js.TypeError "Cannot read properties of undefined"), w)
    end.

(** A field assignment on the object behind a reference. *)
Definition assign (p : positive) (f : Db.PendingPR -> Db.PendingPR) : M unit :=
  fun w =>
    match heap w !! p with
    | Some r =>
        (Ok tt, {| heap := <[p := f r]> (heap w); host := host w;
                   store := store w; trace := trace w |})
    | None => (Throw (Js.TypeError "Cannot set properties of undefined"), w)
    end.

End Monad.

Arguments M H D A : clear implicits.

Declare Scope monad_scope.
Delimit Scope monad_scope with monad.
Notation "x <- m ;; k" := (bind m (fun x => k))
  (at level 100, m at next level, right associativity) : monad_scope.
Notation "m ;;; k" := (bind m (fun _ => k))
  (at level 100, right associativity) : monad_scope.
Open Scope monad_scope.

(** ** The functions of [src/github.ts] *)

Section Github.
Context {H D : Type} `{!Client H} `{!Db.Database D} `{!Codec}.

(** [if (prID)] on an optional number. *)
Definition number_truthy (n : option Z) : bool :=
  match n with
  | Some n => negb (n =? 0)
  | None => false
  end.

(** [`${prID}`] on an optional number. *)
Definition string_of_optional (n : option Z) : string :=
  match n with
  | Some n => string_of_number n
  | None => "undefined"
  end.

(** The sentence of the issue body that announces the pause. *)
Definition paused_notice (org repo branch : string) : string :=
  "Syncing is paused for the branch " +:+ branch +:+ " on " +:+ org +:+ "/"
    +:+ repo +:+ " until the issue is manually resolved and this "
    +:+ "issue is closed." +:+ LF.

Definition fence : string := "```".

Definition failure_title (upstreamPRIDs : list Z) : string :=
  "😿 Failed to sync the upstream PRs: #" +:+ join_numbers ", #" upstreamPRIDs.

Definition failure_body (org repo upstreamOrg branch : string)
    (upstreamPRIDs : list Z) (reason : string) (prID : option Z)
    (patchCmd : option (list string)) (err : Js.value) : string :=
  let prPrefix := LF +:+ "* " +:+ upstreamOrg +:+ "/" +:+ repo +:+ "#" in
  let body :=
    "🪞 Magic Mirror 🪞 failed to sync the following upstream pull-requests because "
      +:+ reason +:+ ":" +:+
      (prPrefix +:+ join_numbers prPrefix upstreamPRIDs +:+ LF +:+ LF) in
  let body :=
    if number_truthy prID
    then body +:+ ("The pull-request (#" +:+ string_of_optional prID
                     +:+ ") can be reviewed for more information." +:+ LF +:+ LF)
    else body in
  let body := body +:+ paused_notice org repo branch in
  let body :=
    if Js.truthy err
    then body +:+ (LF +:+ "Syncing error:" +:+ LF +:+ fence +:+ LF
                     +:+ Js.toString err +:+ LF +:+ fence +:+ LF)
    else body in
  let body :=
    match patchCmd with
    | Some cmds =>
        body +:+ (LF +:+ "Commands to recreate the issue:" +:+ LF +:+ LF
                    +:+ fence +:+ LF +:+ String.concat LF cmds +:+ LF
                    +:+ fence +:+ LF)
    | None => body
    end in
  body +:+ LF +:+ "![sad Yoda](https://media.giphy.com/media/3o7qDK5J5Uerg3atJ6/giphy.gif)".

Definition failure_issue (org repo upstreamOrg branch : string)
    (upstreamPRIDs : list Z) (reason : string) (prID : option Z)
    (assignees patchCmd : option (list string)) (err : Js.value)
    : IssuesCreate.params :=
  {| IssuesCreate.owner := org;
     IssuesCreate.repo := repo;
     IssuesCreate.title := failure_title upstreamPRIDs;
     IssuesCreate.body :=
       failure_body org repo upstreamOrg branch upstreamPRIDs reason prID patchCmd err;
     IssuesCreate.assignees := assignees |}.

Definition createFailureIssue (org repo upstreamOrg branch : string)
    (upstreamPRIDs : list Z) (reason : string) (prID : option Z)
    (assignees patchCmd : option (list string)) (err : Js.value) : M H D Z :=
  let p := failure_issue org repo upstreamOrg branch upstreamPRIDs reason
             prID assignees patchCmd err in
  resp <- request (CallIssuesCreate p) (issues_create p) ;;
  ret (IssuesCreate.number (data resp)).

Definition addComment (org repo : string) (id : Z) (message : string)
    : M H D Js.value :=
  try_catch
    (let p := {| IssuesCreateComment.owner := org;
                 IssuesCreateComment.repo := repo;
                 IssuesCreateComment.issue_number := id;
                 IssuesCreateComment.body := message |} in
     request (CallIssuesCreateComment p) (issues_createComment p) ;;;
     ret Js.Undefined)
    (fun err => ret err).

(** The first [try] block of [updatePR] either returns from the function
    ([inl]) or falls through with the locals [body] and [assignees]
    ([inr]). *)
Definition updatePR_read (org repo : string) (id : Z) (assignees : list string)
    : M H D (Js.value + string * list string) :=
  try_catch
    (let p := {| PullsGet.owner := org; PullsGet.repo := repo;
                 PullsGet.pull_number := id |} in
     resp <- request (CallPullsGet p) (pulls_get p) ;;
     match PullsGet.body (data resp) with
     | None => ret (inl Js.Undefined)
     | Some body =>
         let assignees :=
           match PullsGet.assignees (data resp) with
           | Some (u :: us) => map PullsGet.login (u :: us)
           | Some [] | None => assignees
           end in
         ret (inr (body, assignees))
     end)
    (fun err => ret (inl err)).

Definition updatePR (org repo : string) (id : Z) (assignees : list string)
    (message : string) : M H D Js.value :=
  r <- updatePR_read org repo id assignees ;;
  match r with
  | inl v => ret v
  | inr (body, assignees) =>
      let body := body +:+ (LF +:+ LF +:+ message) in
      try_catch
        (let p := {| PullsUpdate.owner := org; PullsUpdate.repo := repo;
                     PullsUpdate.pull_number := id; PullsUpdate.body := body;
                     PullsUpdate.assignees := assignees |} in
         request (CallPullsUpdate p) (pulls_update p) ;;;
         ret Js.Undefined)
        (fun err => ret err)
  end.

Definition getRequiredChecks (organization repoName branchName : string)
    : M H D JsSet.t :=
  let p := {| ReposGetBranch.owner := organization;
              ReposGetBranch.repo := repoName;
              ReposGetBranch.branch := branchName |} in
  branch <- request (CallReposGetBranch p) (repos_getBranch p) ;;
  let protection := ReposGetBranch.protection (data branch) in
  match ReposGetBranch.enabled protection,
        ReposGetBranch.required_status_checks protection with
  | Some true, Some checks =>
      ret (JsSet.from_list (ReposGetBranch.contexts checks))
  | _, _ => ret JsSet.empty
  end.

Definition merge_request (r : Db.PendingPR) (head : string) : PullsMerge.params :=
  {| PullsMerge.owner := Db.organization (Db.repo r);
     PullsMerge.repo := Db.name (Db.repo r);
     PullsMerge.pull_number := Db.prID r;
     PullsMerge.merge_method := "rebase";
     PullsMerge.sha := head |}.

Definition merge_failure_reason (r : Db.PendingPR) (err : Js.value) : string :=
  "the pull-request (#" +:+ string_of_optional (Db.prID r)
    +:+ ") couldn't be merged: " +:+ Js.toString err.

Definition mergePR (pendingPR : positive) (head : string) : M H D bool :=
  try_catch
    (r <- deref pendingPR ;;
     let p := merge_request r head in
     request (CallPullsMerge p) (pulls_merge p) ;;;
     ret true)
    (fun err =>
       r <- deref pendingPR ;;
       issueID <- createFailureIssue
                    (Db.organization (Db.repo r))
                    (Db.name (Db.repo r))
                    (Db.organization (Db.upstreamRepo r))
                    (Db.branch r)
                    (Db.upstreamPRIDs r)
                    (merge_failure_reason r err)
                    (Db.prID r)
                    (Some (Db.upstreamAuthors r))
                    None
                    Js.Undefined ;;
       assign pendingPR (Db.set_githubIssue issueID) ;;;
       assign pendingPR (Db.set_action Db.Blocked) ;;;
       r' <- deref pendingPR ;;
       query (CallSetPendingPR r') (Db.setPendingPR r') ;;;
       ret false).

Definition in_TypeError : Js.value :=
  Js.TypeError "Cannot use 'in' operator to search for a key in a primitive".

(** What [getOwners] does with the awaited response object inside its
    [try] block: [Some l] is [return l], [None] is falling out of the
    block. *)
Definition readOwners (ownersFileObject : Js.value)
    : M H D (option (list Js.value)) :=
  if Js.isArray ownersFileObject then ret None
  else
    match Js.has "content" ownersFileObject with
    | None => throw in_TypeError
    | Some false => ret None
    | Some true =>
        match Js.get "content" ownersFileObject with
        | Js.Str content =>
            let rawYaml := base64_utf8 content in
            match yaml_load rawYaml with
            | Throw e => throw e
            | Ok ownersObj =>
                if (String.eqb (Js.typeof ownersObj) "object"
                    && Js.truthy ownersObj)%bool
                then
                  match Js.has "approvers" ownersObj with
                  | None => throw in_TypeError
                  | Some false => ret None
                  | Some true =>
                      match Js.get "approvers" ownersObj with
                      | Js.Arr approvers => ret (Some approvers)
                      | _ => ret None
                      end
                  end
                else ret None
            end
        | _ => ret None
        end
    end.

Definition owners_request (organization repoName branchName : string)
    : ReposGetContent.params :=
  {| ReposGetContent.owner := organization;
     ReposGetContent.repo := repoName;
     ReposGetContent.path := "OWNERS";
     ReposGetContent.ref := branchName;
     ReposGetContent.mediaType_format := "application/vnd.github+json" |}.

Definition owners_error (err : Js.value) : Js.value :=
  Js.Err "Error" ("failed to retrieve OWNERS file: " +:+ Js.toString err).

Definition getOwners (organization repoName branchName : string)
    : M H D (list Js.value) :=
  r <- try_catch
         (let p := owners_request organization repoName branchName in
          ownersFileObject <- request (CallReposGetContent p) (repos_getContent p) ;;
          readOwners (to_js ownersFileObject))
         (fun err => throw (owners_error err)) ;;
  match r with
  | Some approvers => ret approvers
  | None => ret []
  end.

(** *** The operations as one type *)

Inductive Op : Type :=
| OpCreateFailureIssue (org repo upstreamOrg branch : string)
    (upstreamPRIDs : list Z) (reason : string) (prID : option Z)
    (assignees patchCmd : option (list string)) (err : Js.value)
| OpAddComment (org repo : string) (id : Z) (message : string)
| OpUpdatePR (org repo : string) (id : Z) (assignees : list string)
    (message : string)
| OpGetRequiredChecks (organization repoName branchName : string)
| OpMergePR (pendingPR : positive) (head : string)
| OpGetOwners (organization repoName branchName : string).

(** The world an operation leaves behind, whether it returns or throws. *)
Definition after (op : Op) (w : World H D) : World H D :=
  match op with
  | OpCreateFailureIssue org repo upstreamOrg branch ids reason prID a c e =>
      snd (createFailureIssue org repo upstreamOrg branch ids reason prID a c e w)
  | OpAddComment org repo id message => snd (addComment org repo id message w)
  | OpUpdatePR org repo id assignees message =>
      snd (updatePR org repo id assignees message w)
  | OpGetRequiredChecks o r b => snd (getRequiredChecks o r b w)
  | OpMergePR p head => snd (mergePR p head w)
  | OpGetOwners o r b => snd (getOwners o r b w)
  end.

End Github.

(** ** The head precondition of the merge endpoint

    [mergePR] passes [sha: head]; what the host does with it is the host's
    business.  A host honours the precondition when it rejects every merge
    whose [sha] is not the current head of the pull request, where
    [current_head] reads that head off the host state. *)
Definition rejects_stale_head {H : Type} `{!Client H}
    (current_head : H -> string -> string -> option Z -> option string) : Prop :=
  forall (p : PullsMerge.params) (h : H),
    current_head h (PullsMerge.owner p) (PullsMerge.repo p) (PullsMerge.pull_number p)
      <> Some (PullsMerge.sha p) ->
    exists e, fst (pulls_merge p h) = Throw e.

(** The world right after the merge request [req] got the host to [h1]. *)
Definition after_merge {H D : Type} (w : World H D) (req : PullsMerge.params)
    (h1 : H) : World H D :=
  {| heap := heap w; host := h1; store := store w;
     trace := (trace w ++ [CallPullsMerge req])%list |}.

(** [w'] comes from [w] by calls to the host only: the heap and the
    store are the same, and the log grew by calls that are neither merge
    requests nor store writes. *)
Definition quiet {H D : Type} (w w' : World H D) : Prop :=
  heap w' = heap w /\ store w' = store w /\
  exists calls, trace w' = (trace w ++ calls)%list
                /\ count is_store_write calls = 0%nat
                /\ count is_merge calls = 0%nat.

(** The report [mergePR] files for a record whose merge failed with [err]. *)
Definition report_failed_merge {H D : Type} `{!Client H}
    (r : Db.PendingPR) (err : Js.value) : M H D Z :=
  createFailureIssue
    (Db.organization (Db.repo r)) (Db.name (Db.repo r))
    (Db.organization (Db.upstreamRepo r)) (Db.branch r) (Db.upstreamPRIDs r)
    (merge_failure_reason r err) (Db.prID r) (Some (Db.upstreamAuthors r))
    None Js.Undefined.

(** The record as [mergePR] leaves it once the issue [issueID] exists. *)
Definition blocked_by (issueID : Z) (r : Db.PendingPR) : Db.PendingPR :=
  Db.set_action Db.Blocked (Db.set_githubIssue issueID r).

(** ** A scripted host, database and codec

    A small GitHub with one pull request, one branch and one [OWNERS]
    file, used to run the functions on concrete inputs. *)
Module Mock.

Record github : Type := {
  pr_head : string;                       (* the pull request's current head *)
  pr_conflict : bool;                     (* the pull request cannot be rebased *)
  pr_body : option string;
  pr_assignees : option (list PullsGet.user);
  issues_enabled : bool;                  (* issue creation is accepted *)
  next_issue : Z;
  branch_protection : ReposGetBranch.protection_t;
  owners_file : option Js.value;          (* the content payload; [None]: no such file *)
}.

Definition respond {A} (code : Z) (a : A) : Response A :=
  {| status := code; url := "https://api.github.com"; headers := []; data := a |}.

Definition http_error (message : string) : Js.value := Js.Err "HttpError" message.

Definition with_next_issue (n : Z) (h : github) : github :=
  {| pr_head := pr_head h; pr_conflict := pr_conflict h; pr_body := pr_body h;
     pr_assignees := pr_assignees h; issues_enabled := issues_enabled h;
     next_issue := n; branch_protection := branch_protection h;
     owners_file := owners_file h |}.

Definition with_issues (enabled : bool) (h : github) : github :=
  {| pr_head := pr_head h; pr_conflict := pr_conflict h; pr_body := pr_body h;
     pr_assignees := pr_assignees h; issues_enabled := enabled;
     next_issue := next_issue h; branch_protection := branch_protection h;
     owners_file := owners_file h |}.

Definition with_owners (payload : option Js.value) (h : github) : github :=
  {| pr_head := pr_head h; pr_conflict := pr_conflict h; pr_body := pr_body h;
     pr_assignees := pr_assignees h; issues_enabled := issues_enabled h;
     next_issue := next_issue h; branch_protection := branch_protection h;
     owners_file := payload |}.

Definition with_body (body : option string) (h : github) : github :=
  {| pr_head := pr_head h; pr_conflict := pr_conflict h; pr_body := body;
     pr_assignees := pr_assignees h; issues_enabled := issues_enabled h;
     next_issue := next_issue h; branch_protection := branch_protection h;
     owners_file := owners_file h |}.

Definition with_pr (body : string) (assignees : list string) (h : github) : github :=
  {| pr_head := pr_head h; pr_conflict := pr_conflict h; pr_body := Some body;
     pr_assignees := Some (map PullsGet.Build_user assignees);
     issues_enabled := issues_enabled h;
     next_issue := next_issue h; branch_protection := branch_protection h;
     owners_file := owners_file h |}.

#[global] Instance client : Client github := {|
  issues_create p h :=
    if issues_enabled h
    then (Ok (respond 201 {| IssuesCreate.number := next_issue h |}),
          with_next_issue (next_issue h + 1) h)
    else (Throw (http_error "Issues are disabled for this repo"), h);
  issues_createComment p h := (Ok (respond 201 tt), h);
  pulls_get p h :=
    (Ok (respond 200 {| PullsGet.body := pr_body h;
                        PullsGet.assignees := pr_assignees h |}), h);
  pulls_update p h :=
    (Ok (respond 200 tt),
     with_pr (PullsUpdate.body p) (PullsUpdate.assignees p) h);
  pulls_merge p h :=
    if String.eqb (PullsMerge.sha p) (pr_head h)
    then if pr_conflict h
         then (Throw (http_error "Pull Request is not mergeable"), h)
         else (Ok (respond 200 tt), h)
    else (Throw (http_error "Head branch was modified. Review and try the merge again."), h);
  repos_getBranch p h :=
    (Ok (respond 200 {| ReposGetBranch.protection := branch_protection h |}), h);
  repos_getContent p h :=
    match owners_file h with
    | Some payload => (Ok (respond 200 payload), h)
    | None => (Throw (http_error "Not Found"), h)
    end;
|}.

(** The database keeps the records by fork and branch; the last write
    wins. *)
Definition database : Type := gmap (string * string * string) Db.PendingPR.

Definition key (r : Db.PendingPR) : string * string * string :=
  (Db.organization (Db.repo r), Db.name (Db.repo r), Db.branch r).

#[global] Instance db : Db.Database database := {|
  Db.setPendingPR r d := (Ok tt, <[key r := r]> d);
|}.

(** The [OWNERS] document [approvers: [alice, bob]], its base64 form and
    what the libraries make of them. *)
Definition owners_yaml : string := "approvers:" +:+ LF +:+ "- alice" +:+ LF +:+ "- bob" +:+ LF.
Definition owners_base64 : string := "YXBwcm92ZXJzOgotIGFsaWNlCi0gYm9iCg==".
Definition reviewers_yaml : string := "reviewers:" +:+ LF +:+ "- carol" +:+ LF.
Definition reviewers_base64 : string := "cmV2aWV3ZXJzOgotIGNhcm9sCg==".

#[global] Instance codec : Codec := {|
  base64_utf8 s :=
    if String.eqb s owners_base64 then owners_yaml
    else if String.eqb s reviewers_base64 then reviewers_yaml
    else "";
  yaml_load s :=
    if String.eqb s owners_yaml
    then Ok (Js.Obj [("approvers", Js.Arr [Js.Str "alice"; Js.Str "bob"])])
    else if String.eqb s reviewers_yaml
    then Ok (Js.Obj [("reviewers", Js.Arr [Js.Str "carol"])])
    else Ok Js.Undefined;
|}.

Definition fork : Db.Repo := {| Db.organization := "stolostron"; Db.name := "config-policy-controller" |}.
Definition upstream : Db.Repo := {| Db.organization := "open-cluster-management-io"; Db.name := "config-policy-controller" |}.

Definition pending : Db.PendingPR :=
  {| Db.repo := fork; Db.upstreamRepo := upstream; Db.branch := "main";
     Db.upstreamPRIDs := [101; 102]; Db.upstreamAuthors := ["alice"];
     Db.prID := Some 7; Db.githubIssue := None; Db.action := Db.Pending |}.

Definition hub : github :=
  {| pr_head := "c0ffee"; pr_conflict := false; pr_body := Some "Syncing upstream.";
     pr_assignees := Some [PullsGet.Build_user "alice"];
     issues_enabled := true; next_issue := 12;
     branch_protection :=
       {| ReposGetBranch.enabled := Some true;
          ReposGetBranch.required_status_checks :=
            Some {| ReposGetBranch.contexts := ["lint"; "test"; "lint"] |} |};
     owners_file :=
       Some (Js.Obj [("type", Js.Str "file"); ("encoding", Js.Str "base64");
                     ("name", Js.Str "OWNERS"); ("content", Js.Str owners_base64)]) |}.

(** The mock has a single pull request, whatever the coordinates. *)
Definition current_head (h : github) (owner repo : string)
    (pull_number : option Z) : option string := Some (pr_head h).

Definition world (h : github) : World github database :=
  {| heap := {[ 1%positive := pending ]}; host := h; store := ∅; trace := [] |}.

End Mock.

(** ** More scripted collaborators

    A database that refuses every write, a fork whose branch protection
    lists each required check once, and a second record on the heap. *)
Module MockFaults.

Inductive readonly : Type := ReadOnly.

#[global] Instance db : Db.Database readonly := {|
  Db.setPendingPR r d :=
    (Throw (Js.Err "Error" "SQLITE_READONLY: attempt to write a readonly database"), d);
|}.

Definition world (h : Mock.github) : World Mock.github readonly :=
  {| heap := {[ 1%positive := Mock.pending ]}; host := h; store := ReadOnly;
     trace := [] |}.

Definition strict_hub : Mock.github :=
  {| Mock.pr_head := "c0ffee"; Mock.pr_conflict := false;
     Mock.pr_body := Some "Syncing upstream.";
     Mock.pr_assignees := None;
     Mock.issues_enabled := true; Mock.next_issue := 12;
     Mock.branch_protection :=
       {| ReposGetBranch.enabled := Some true;
          ReposGetBranch.required_status_checks :=
            Some {| ReposGetBranch.contexts := ["lint"; "test"; "e2e"] |} |};
     Mock.owners_file := None |}.

Definition other_pending : Db.PendingPR :=
  {| Db.repo := Mock.fork; Db.upstreamRepo := Mock.upstream;
     Db.branch := "release-2.9";
     Db.upstreamPRIDs := [99]; Db.upstreamAuthors := ["dave"];
     Db.prID := None; Db.githubIssue := None; Db.action := Db.Pending |}.

Definition two_records (h : Mock.github) : World Mock.github Mock.database :=
  {| heap := <[ 2%positive := other_pending ]> {[ 1%positive := Mock.pending ]};
     host := h; store := ∅; trace := [] |}.

End MockFaults.

(** ** Shapes of the issue body *)

(** The line an upstream pull request gets in the body. *)
Definition bullet (upstreamOrg repo : string) (id : Z) : string :=
  LF +:+ "* " +:+ upstreamOrg +:+ "/" +:+ repo +:+ "#" +:+ string_of_number id.

(** The sentence that points at the fork's pull request. *)
Definition pr_notice (n : Z) : string :=
  "The pull-request (#" +:+ string_of_number n
    +:+ ") can be reviewed for more information." +:+ LF +:+ LF.

(** The block that holds the commands to recreate the change. *)
Definition commands_block (cmds : list string) : string :=
  "Commands to recreate the issue:" +:+ LF +:+ LF +:+ fence +:+ LF
    +:+ String.concat LF cmds +:+ LF +:+ fence +:+ LF.

(** * Properties *)

(** ** Substrings *)

Lemma prefix_app (s t : string) : String.prefix s (s +:+ t) = true.
Proof.
  induction s as [|a s IH]; simpl.
  - now destruct t.
  - destruct (ascii_dec a a) as [_|Hne]; [exact IH | now destruct Hne].
Qed.

Lemma prefix_app_l (sub s t : string) :
  String.prefix sub s = true -> String.prefix sub (s +:+ t) = true.
Proof.
  revert s; induction sub as [|a sub IH]; intros s Hp.
  - now destruct (s +:+ t).
  - destruct s as [|b s]; simpl in *; [discriminate|].
    destruct (ascii_dec a b); [now apply IH | discriminate].
Qed.

Lemma includes_prefix (sub s : string) :
  String.prefix sub s = true -> includes sub s = true.
Proof. intros Hp. destruct s; simpl in *; now rewrite Hp. Qed.

Lemma includes_cons (sub : string) (a : ascii) (s : string) :
  includes sub s = true -> includes sub (String a s) = true.
Proof.
  intros Hi. change (includes sub (String a s))
    with (if String.prefix sub (String a s) then true else includes sub s).
  now destruct (String.prefix sub (String a s)).
Qed.

Lemma includes_app_r (sub s t : string) :
  includes sub t = true -> includes sub (s +:+ t) = true.
Proof.
  intros Hi. induction s as [|a s IH]; [exact Hi|].
  simpl String.append. now apply includes_cons.
Qed.

Lemma includes_app_l (sub s t : string) :
  includes sub s = true -> includes sub (s +:+ t) = true.
Proof.
  induction s as [|a s IH]; intros Hi.
  - destruct sub; simpl in Hi; [|discriminate].
    apply includes_prefix. simpl. now destruct t.
  - change (includes sub (String a s))
      with (if String.prefix sub (String a s) then true else includes sub s) in Hi.
    destruct (String.prefix sub (String a s)) eqn:Hp.
    + apply includes_prefix. now apply prefix_app_l.
    + simpl String.append. apply includes_cons. now apply IH.
Qed.

Lemma includes_here (sub t : string) : includes sub (sub +:+ t) = true.
Proof. apply includes_prefix, prefix_app. Qed.

Lemma includes_refl (s : string) : includes s s = true.
Proof.
  apply includes_prefix. induction s as [|a s IH]; simpl; [reflexivity|].
  destruct (ascii_dec a a) as [_|Hne]; [exact IH | now destruct Hne].
Qed.

Lemma prefix_inv (sub s : string) :
  String.prefix sub s = true -> exists post, s = sub +:+ post.
Proof.
  revert s; induction sub as [|a sub IH]; intros s Hp.
  - now exists s.
  - destruct s as [|b s]; simpl in Hp; [discriminate|].
    destruct (ascii_dec a b) as [<-|]; [|discriminate].
    destruct (IH s Hp) as [post Hs]. exists post. now subst s.
Qed.

(** [includes] decides the substring relation. *)
Lemma includes_spec (sub s : string) :
  includes sub s = true <-> exists pre post, s = pre +:+ sub +:+ post.
Proof.
  split.
  - induction s as [|a s IH]; intros Hi.
    + simpl in Hi. destruct sub; [|discriminate]. now exists "", "".
    + change (includes sub (String a s))
        with (if String.prefix sub (String a s) then true else includes sub s) in Hi.
      destruct (String.prefix sub (String a s)) eqn:Hp.
      * destruct (prefix_inv _ _ Hp) as [post Hs]. now exists "", post.
      * destruct (IH Hi) as (pre & post & Hs).
        exists (String a pre), post. now subst s.
  - intros (pre & post & Hs). subst s. apply includes_app_r, includes_here.
Qed.

Lemma append_assoc (a b c : string) : (a +:+ b) +:+ c = a +:+ (b +:+ c).
Proof.
  induction a as [|x a IH]; [reflexivity|].
  change (String x ((a +:+ b) +:+ c) = String x (a +:+ (b +:+ c))).
  now rewrite IH.
Qed.

(** A line of [pre#x] entries joined by [sep#] shows every [#x]. *)
Lemma includes_hash_join (sep : string) (l : list string) :
  forall (pre x : string),
    In x l ->
    includes ("#" +:+ x) ((pre +:+ "#") +:+ String.concat (sep +:+ "#") l) = true.
Proof.
  induction l as [|y l IH]; intros pre x Hin; [destruct Hin|].
  destruct l as [|z l].
  - destruct Hin as [->|[]]. simpl String.concat.
    rewrite append_assoc. apply includes_app_r, includes_refl.
  - change (String.concat (sep +:+ "#") (y :: z :: l))
      with (y +:+ (sep +:+ "#") +:+ String.concat (sep +:+ "#") (z :: l)).
    destruct Hin as [->|Hin].
    + rewrite append_assoc, <- (append_assoc "#" x).
      apply includes_app_r, includes_here.
    + rewrite <- (append_assoc y), <- (append_assoc y sep "#"), <- append_assoc.
      rewrite <- (append_assoc (pre +:+ "#")).
      now apply IH.
Qed.

(** ** The failure report *)

(** The title enumerates every upstream pull request as [#id]. *)
Lemma failure_title_lists_ids (upstreamPRIDs : list Z) (id : Z) :
  In id upstreamPRIDs ->
  includes ("#" +:+ string_of_number id) (failure_title upstreamPRIDs) = true.
Proof.
  intros Hin. unfold failure_title, join_numbers.
  apply (includes_hash_join ", " (map string_of_number upstreamPRIDs)
           "😿 Failed to sync the upstream PRs: ").
  now apply in_map.
Qed.

(** The body always carries the notice that syncing is paused. *)
Lemma failure_body_paused org repo upstreamOrg branch ids reason prID patchCmd err :
  includes (paused_notice org repo branch)
    (failure_body org repo upstreamOrg branch ids reason prID patchCmd err) = true.
Proof.
  unfold failure_body.
  apply includes_app_l.
  destruct patchCmd; [apply includes_app_l|];
    (destruct (Js.truthy err); [apply includes_app_l|]);
    apply includes_app_r, includes_refl.
Qed.

(** A truthy [err] is printed between two fences. *)
Lemma failure_body_fenced_error org repo upstreamOrg branch ids reason prID patchCmd err :
  Js.truthy err = true ->
  includes (fence +:+ LF +:+ Js.toString err +:+ LF +:+ fence)
    (failure_body org repo upstreamOrg branch ids reason prID patchCmd err) = true.
Proof.
  intros Herr. unfold failure_body. rewrite Herr.
  apply includes_app_l.
  assert (Hblock : forall b : string,
    includes (fence +:+ LF +:+ Js.toString err +:+ LF +:+ fence)
      (b +:+ (LF +:+ "Syncing error:" +:+ LF +:+ fence +:+ LF
                +:+ Js.toString err +:+ LF +:+ fence +:+ LF)) = true).
  { intros b. do 4 apply includes_app_r.
    apply includes_spec. exists "", LF.
    now rewrite !append_assoc. }
  destruct patchCmd; [apply includes_app_l|]; apply Hblock.
Qed.

(** ** Counting calls *)

Lemma count_app (f : Call -> bool) (t u : list Call) :
  count f (t ++ u) = (count f t + count f u)%nat.
Proof. unfold count. now rewrite List.filter_app, length_app. Qed.

(** ** [createFailureIssue] *)

Section CreateFailureIssue.
Context {H D : Type} `{!Client H} `{!Db.Database D}.

(** [createFailureIssue] makes one call; the heap and the store are not
    its business. *)
Lemma createFailureIssue_run (w : World H D)
    org repo upstreamOrg branch ids reason prID assignees patchCmd err :
  let p := failure_issue org repo upstreamOrg branch ids reason prID
             assignees patchCmd err in
  createFailureIssue org repo upstreamOrg branch ids reason prID
    assignees patchCmd err w =
  (match fst (issues_create p (host w)) with
   | Ok resp => Ok (IssuesCreate.number (data resp))
   | Throw e => Throw e
   end,
   {| heap := heap w; host := snd (issues_create p (host w)); store := store w;
      trace := trace w ++ [CallIssuesCreate p] |}).
Proof.
  intros p. unfold createFailureIssue, bind, request, ret. fold p.
  now destruct (issues_create p (host w)) as [[resp|e] h'].
Qed.

End CreateFailureIssue.

(** ** [mergePR] *)

Section MergePR.
Context {H D : Type} `{!Client H} `{!Db.Database D}.

(** The three ways through [mergePR] for a live reference. *)
Lemma mergePR_run (w : World H D) (p : positive) (r : Db.PendingPR) (head : string) :
  heap w !! p = Some r ->
  mergePR p head w =
  let req := merge_request r head in
  match pulls_merge req (host w) with
  | (Ok _, h1) => (Ok true, after_merge w req h1)
  | (Throw e, h1) =>
      match report_failed_merge r e (after_merge w req h1) with
      | (Throw e', w2) => (Throw e', w2)
      | (Ok issueID, w2) =>
          let r' := blocked_by issueID r in
          (match fst (Db.setPendingPR r' (store w2)) with
           | Ok _ => Ok false
           | Throw e'' => Throw e''
           end,
           {| heap := <[p := r']> (heap w2); host := host w2;
              store := snd (Db.setPendingPR r' (store w2));
              trace := trace w2 ++ [CallSetPendingPR r'] |})
      end
  end.
Proof.
  intros Hp. unfold mergePR, try_catch, bind at 1 2, deref at 1, request at 1, ret at 1.
  rewrite Hp. cbv zeta.
  destruct (pulls_merge (merge_request r head) (host w)) as [[resp|e] h1]; [reflexivity|].
  unfold bind at 1, deref at 1. cbn [heap]. rewrite Hp.
  unfold bind at 1. fold (report_failed_merge (H:=H) (D:=D) r e). fold (after_merge w (merge_request r head) h1).
  unfold report_failed_merge. rewrite createFailureIssue_run.
  cbn [host heap store trace fst snd after_merge].
  set (issue := failure_issue _ _ _ _ _ _ _ _ _ _).
  destruct (issues_create issue h1) as [[resp|e'] h2]; cbn [fst snd]; [|reflexivity].
  unfold bind at 1, assign at 1. cbn [heap host store trace]. rewrite Hp.
  unfold bind at 1, assign at 1. cbn [heap host store trace]. rewrite lookup_insert_eq.
  unfold bind at 1, deref at 1. cbn [heap host store trace]. rewrite lookup_insert_eq.
  unfold bind at 1, query at 1. cbn [heap host store trace].
  rewrite insert_insert_eq. fold (blocked_by (IssuesCreate.number (data resp)) r).
  now destruct (Db.setPendingPR _ (store w)) as [[[]|e''] d'].
Qed.

Lemma blocked_has_issue_spec (r : Db.PendingPR) :
  Db.blocked_has_issue r = true <->
  (Db.action r = Db.Blocked -> exists issueID, Db.githubIssue r = Some issueID).
Proof.
  unfold Db.blocked_has_issue, Db.is_blocked.
  destruct (Db.action r), (Db.githubIssue r) as [n|]; split; intros Hb;
    try reflexivity; try discriminate; try (intros _; now exists n).
  now destruct Hb.
Qed.

Lemma blocked_by_has_issue (issueID : Z) (r : Db.PendingPR) :
  Db.blocked_has_issue (blocked_by issueID r) = true.
Proof. reflexivity. Qed.

(** A dangling reference: nothing is called and nothing changes. *)
Lemma mergePR_dangling (w : World H D) (p : positive) (head : string) :
  heap w !! p = None -> snd (mergePR p head w) = w.
Proof.
  intros Hp. unfold mergePR, try_catch, bind, deref.
  rewrite Hp. cbn beta iota. now rewrite Hp.
Qed.

(** C1 (as the code has it): when the host rejects the merge,
    [createFailureIssue] returns an issue number and the store accepts
    the write, [mergePR] has filed the failure issue through
    [createFailureIssue], stored the number that call returned in
    [githubIssue], set [action] to [Blocked], handed the updated record to
    [db.setPendingPR] and returns [false]; the merge endpoint is called
    once and not again. *)
Theorem mergePR_failure_blocks_record (w : World H D) (p : positive)
    (r : Db.PendingPR) (head : string) (e : Js.value) (h1 : H)
    (issueID : Z) (w2 : World H D) (d' : D) :
  heap w !! p = Some r ->
  pulls_merge (merge_request r head) (host w) = (Throw e, h1) ->
  report_failed_merge r e (after_merge w (merge_request r head) h1)
    = (Ok issueID, w2) ->
  Db.setPendingPR (blocked_by issueID r) (store w) = (Ok tt, d') ->
  let res := mergePR p head w in
  fst res = Ok false
  /\ heap (snd res) = <[p := blocked_by issueID r]> (heap w)
  /\ Db.githubIssue (blocked_by issueID r) = Some issueID
  /\ Db.action (blocked_by issueID r) = Db.Blocked
  /\ store (snd res) = d'
  /\ trace (snd res) =
       (trace w ++ [CallPullsMerge (merge_request r head);
                   CallIssuesCreate
                     (failure_issue
                        (Db.organization (Db.repo r)) (Db.name (Db.repo r))
                        (Db.organization (Db.upstreamRepo r)) (Db.branch r)
                        (Db.upstreamPRIDs r) (merge_failure_reason r e)
                        (Db.prID r) (Some (Db.upstreamAuthors r)) None
                        Js.Undefined);
                   CallSetPendingPR (blocked_by issueID r)])%list
  /\ count is_merge (trace (snd res)) = S (count is_merge (trace w)).
Proof.
  intros Hp Hmerge Hissue Hstore res. subst res.
  rewrite (mergePR_run w p r head Hp). cbv zeta. rewrite Hmerge, Hissue.
  unfold report_failed_merge in Hissue. rewrite createFailureIssue_run in Hissue.
  injection Hissue as Hid Hw2. subst w2. cbn [fst snd heap host store trace after_merge].
  rewrite Hstore. cbn [fst snd].
  rewrite <- !app_assoc. cbn [app].
  repeat split; try reflexivity.
  rewrite count_app. unfold count at 2. cbn. lia.
Qed.

(** C10: when the issue creation of the failure path fails, the error
    reaches the caller of [mergePR], the record is the one it was, and
    the store is not written. *)
Theorem mergePR_report_failure_propagates (w : World H D) (p : positive)
    (r : Db.PendingPR) (head : string) (e : Js.value) (h1 : H)
    (e' : Js.value) (w2 : World H D) :
  heap w !! p = Some r ->
  pulls_merge (merge_request r head) (host w) = (Throw e, h1) ->
  report_failed_merge r e (after_merge w (merge_request r head) h1)
    = (Throw e', w2) ->
  let res := mergePR p head w in
  fst res = Throw e'
  /\ heap (snd res) = heap w
  /\ heap (snd res) !! p = Some r
  /\ store (snd res) = store w
  /\ count is_store_write (trace (snd res)) = count is_store_write (trace w).
Proof.
  intros Hp Hmerge Hissue res. subst res.
  rewrite (mergePR_run w p r head Hp). cbv zeta. rewrite Hmerge, Hissue.
  unfold report_failed_merge in Hissue. rewrite createFailureIssue_run in Hissue.
  injection Hissue as He Hw2. subst w2. cbn [fst snd heap host store trace after_merge].
  repeat split; try assumption.
  rewrite !count_app. unfold count at 2 3. cbn. lia.
Qed.

(** C3 (as the code has it): the merge is requested with
    [merge_method: "rebase"] and [sha: head], once; [mergePR] never writes
    [Merged]; and against a host that rejects a stale [sha], a call with a
    head that is not the current one does not return [true], and the
    record becomes [Blocked] as soon as the failure issue is created; when
    the issue cannot be created the error propagates and the record is
    the one it was. *)
Theorem mergePR_head_precondition
    (current_head : H -> string -> string -> option Z -> option string)
    (w : World H D) (p : positive) (r : Db.PendingPR) (head : string) :
  rejects_stale_head current_head ->
  heap w !! p = Some r ->
  let req := merge_request r head in
  let res := mergePR p head w in
  PullsMerge.merge_method req = "rebase"
  /\ PullsMerge.sha req = head
  /\ (exists rest, trace (snd res) = (trace w ++ CallPullsMerge req :: rest)%list
                   /\ count is_merge rest = 0%nat)
  /\ (forall r', heap (snd res) !! p = Some r' ->
                 r' = r \/ Db.action r' = Db.Blocked)
  /\ (current_head (host w) (PullsMerge.owner req) (PullsMerge.repo req)
         (PullsMerge.pull_number req) <> Some head ->
      fst res <> Ok true
      /\ exists e h1,
           pulls_merge req (host w) = (Throw e, h1)
           /\ (forall issueID w2,
                 report_failed_merge r e (after_merge w req h1) = (Ok issueID, w2) ->
                 heap (snd res) !! p = Some (blocked_by issueID r))
           /\ (forall e' w2,
                 report_failed_merge r e (after_merge w req h1) = (Throw e', w2) ->
                 fst res = Throw e' /\ heap (snd res) !! p = Some r)).
Proof.
  intros Hguard Hp req res. subst res.
  rewrite (mergePR_run w p r head Hp). cbv zeta. fold req.
  split; [reflexivity|]. split; [reflexivity|].
  destruct (pulls_merge req (host w)) as [[resp|e] h1] eqn:Hmerge.
  - (* the host accepted the merge *)
    cbn [fst snd trace heap after_merge]. split; [|split].
    + now exists [].
    + intros r' Hr'. left. congruence.
    + intros Hstale. destruct (Hguard req (host w) Hstale) as [e He].
      rewrite Hmerge in He. discriminate.
  - (* the host rejected it *)
    unfold report_failed_merge. rewrite createFailureIssue_run.
    cbn [fst snd heap host store trace after_merge].
    set (issue := failure_issue _ _ _ _ _ _ _ _ _ _).
    destruct (issues_create issue h1) as [[resp|e'] h2] eqn:Hcreate;
      cbn [fst snd heap trace].
    + split; [|split].
      * exists [CallIssuesCreate issue;
                CallSetPendingPR (blocked_by (IssuesCreate.number (data resp)) r)].
        split; [now rewrite <- !app_assoc | reflexivity].
      * intros r' Hr'. rewrite lookup_insert_eq in Hr'. right.
        injection Hr' as <-. reflexivity.
      * intros _. split; [now destruct (Db.setPendingPR _ _) as [[[]|?] ?]|].
        exists e, h1. split; [reflexivity|].
        split; intros x w2 Hissue; rewrite createFailureIssue_run in Hissue;
          cbn [host after_merge] in Hissue; fold issue in Hissue;
          rewrite Hcreate in Hissue; cbn [fst snd] in Hissue; [|discriminate].
        injection Hissue as <- _. apply lookup_insert_eq.
    + split; [|split].
      * exists [CallIssuesCreate issue]. split; [now rewrite <- !app_assoc | reflexivity].
      * intros r' Hr'. left. congruence.
      * intros _. split; [discriminate|].
        exists e, h1. split; [reflexivity|].
        split; intros x w2 Hissue; rewrite createFailureIssue_run in Hissue;
          cbn [host after_merge] in Hissue; fold issue in Hissue;
          rewrite Hcreate in Hissue; cbn [fst snd] in Hissue; [discriminate|].
        injection Hissue as <- _. split; [reflexivity | exact Hp].
Qed.

End MergePR.

(** ** The operations that only talk to the host *)

Section HostOnly.
Context {H D : Type} `{!Client H} `{!Db.Database D} `{!Codec}.

Lemma quiet_one (w : World H D) (c : Call) (h' : H) :
  is_store_write c = false -> is_merge c = false ->
  quiet w {| heap := heap w; host := h'; store := store w;
             trace := trace w ++ [c] |}.
Proof.
  intros Hs Hm. repeat split. exists [c]. unfold count. cbn.
  now rewrite Hs, Hm.
Qed.

Lemma createFailureIssue_quiet (w : World H D)
    org repo upstreamOrg branch ids reason prID assignees patchCmd err :
  quiet w (snd (createFailureIssue org repo upstreamOrg branch ids reason
                  prID assignees patchCmd err w)).
Proof. rewrite createFailureIssue_run. now apply quiet_one. Qed.

Lemma addComment_quiet (w : World H D) org repo id message :
  quiet w (snd (addComment org repo id message w)).
Proof.
  unfold addComment, try_catch, bind, request, ret.
  destruct (issues_createComment _ (host w)) as [[resp|e] h'];
    now apply quiet_one.
Qed.

Lemma getRequiredChecks_quiet (w : World H D) organization repoName branchName :
  quiet w (snd (getRequiredChecks organization repoName branchName w)).
Proof.
  unfold getRequiredChecks, bind, request, ret.
  destruct (repos_getBranch _ (host w)) as [[resp|e] h']; [|now apply quiet_one].
  destruct (ReposGetBranch.enabled _) as [[|]|];
    try destruct (ReposGetBranch.required_status_checks _);
    now apply quiet_one.
Qed.

(** On a file payload, an object with a base64 [content], [readOwners]
    returns the [approvers] array of the decoded document, and falls
    through when the document is a mapping without that key. *)
Lemma readOwners_payload (w : World H D) (props doc : list (string * Js.value))
    (content : string) :
  Js.assoc "content" props = Some (Js.Str content) ->
  yaml_load (base64_utf8 content) = Ok (Js.Obj doc) ->
  readOwners (Js.Obj props) w =
  (Ok match Js.assoc "approvers" doc with
      | Some (Js.Arr approvers) => Some approvers
      | _ => None
      end, w).
Proof.
  intros Hcontent Hdoc. unfold readOwners, Js.isArray, Js.has, Js.get.
  rewrite Hcontent. cbv beta iota delta [default id]. rewrite Hdoc.
  change (String.eqb (Js.typeof (Js.Obj doc)) "object" && Js.truthy (Js.Obj doc))%bool
    with true. cbv beta iota delta [id].
  destruct (Js.assoc "approvers" doc) as [[]|]; reflexivity.
Qed.

(** The response envelope has no [content] of its own. *)
Lemma readOwners_envelope (resp : Response Js.value) (w : World H D) :
  readOwners (to_js resp) w = (Ok None, w).
Proof. reflexivity. Qed.

(** [getOwners] in full: a fulfilled content request gives the empty
    list, a rejected one the wrapped error. *)
Lemma getOwners_run (w : World H D) organization repoName branchName :
  let p := owners_request organization repoName branchName in
  getOwners organization repoName branchName w =
  (match fst (repos_getContent p (host w)) with
   | Ok _ => Ok []
   | Throw e => Throw (owners_error e)
   end,
   {| heap := heap w; host := snd (repos_getContent p (host w));
      store := store w; trace := trace w ++ [CallReposGetContent p] |}).
Proof.
  intros p. unfold getOwners, try_catch, bind at 1 2, request. fold p.
  destruct (repos_getContent p (host w)) as [[resp|e] h']; [|reflexivity].
  now rewrite readOwners_envelope.
Qed.

(** [updatePR] in full. *)
Lemma updatePR_run (w : World H D) org repo id assignees message :
  let p := {| PullsGet.owner := org; PullsGet.repo := repo;
              PullsGet.pull_number := id |} in
  updatePR org repo id assignees message w =
  match pulls_get p (host w) with
  | (Throw e, h1) =>
      (Ok e, {| heap := heap w; host := h1; store := store w;
                trace := trace w ++ [CallPullsGet p] |})
  | (Ok resp, h1) =>
      match PullsGet.body (data resp) with
      | None =>
          (Ok Js.Undefined,
           {| heap := heap w; host := h1; store := store w;
              trace := trace w ++ [CallPullsGet p] |})
      | Some body =>
          let q := {| PullsUpdate.owner := org; PullsUpdate.repo := repo;
                      PullsUpdate.pull_number := id;
                      PullsUpdate.body := body +:+ LF +:+ LF +:+ message;
                      PullsUpdate.assignees :=
                        match PullsGet.assignees (data resp) with
                        | Some (u :: us) => map PullsGet.login (u :: us)
                        | Some [] | None => assignees
                        end |} in
          (match fst (pulls_update q h1) with
           | Ok _ => Ok Js.Undefined
           | Throw e => Ok e
           end,
           {| heap := heap w; host := snd (pulls_update q h1); store := store w;
              trace := trace w ++ [CallPullsGet p; CallPullsUpdate q] |})
      end
  end.
Proof.
  intros p. unfold updatePR, updatePR_read, try_catch, bind, request, ret. fold p.
  destruct (pulls_get p (host w)) as [[resp|e] h1]; [|reflexivity].
  destruct (PullsGet.body (data resp)) as [body|]; [|reflexivity].
  cbn [heap host store trace]. cbv zeta.
  destruct (pulls_update _ h1) as [[r|e] h2]; cbn [fst snd];
    now rewrite <- app_assoc.
Qed.

Lemma updatePR_quiet (w : World H D) org repo id assignees message :
  quiet w (snd (updatePR org repo id assignees message w)).
Proof.
  rewrite updatePR_run. cbv zeta.
  destruct (pulls_get _ (host w)) as [[resp|e] h1]; [|now apply quiet_one].
  destruct (PullsGet.body (data resp)) as [body|]; [|now apply quiet_one].
  repeat split. now eexists [_; _].
Qed.

Lemma getOwners_quiet (w : World H D) organization repoName branchName :
  quiet w (snd (getOwners organization repoName branchName w)).
Proof. rewrite getOwners_run. now apply quiet_one. Qed.

End HostOnly.

(** ** [Set<string>] *)

Lemma existsb_eqb_In (x : string) (s : list string) :
  existsb (String.eqb x) s = true <-> In x s.
Proof.
  rewrite existsb_exists. split.
  - intros (y & Hy & Heq). apply String.eqb_eq in Heq. now subst y.
  - intros Hin. exists x. split; [exact Hin | apply String.eqb_refl].
Qed.

Lemma JsSet_add_In (x y : string) (s : JsSet.t) :
  In y (JsSet.add x s) <-> y = x \/ In y s.
Proof.
  unfold JsSet.add. destruct (existsb (String.eqb x) s) eqn:Hx.
  - apply existsb_eqb_In in Hx. split; [now right | now intros [->|]].
  - rewrite in_app_iff. cbn. intuition.
Qed.

Lemma JsSet_add_NoDup (x : string) (s : JsSet.t) :
  NoDup s -> NoDup (JsSet.add x s).
Proof.
  intros Hs. unfold JsSet.add. destruct (existsb (String.eqb x) s) eqn:Hx; [exact Hs|].
  apply NoDup_app. split; [exact Hs|]. split; [|apply NoDup_singleton].
  intros y Hy Hyx. apply list_elem_of_In in Hy. apply list_elem_of_In in Hyx.
  destruct Hyx as [<-|[]].
  apply existsb_eqb_In in Hy. congruence.
Qed.

Lemma JsSet_fill (l : list string) :
  forall acc : JsSet.t,
    NoDup acc ->
    NoDup (fold_left (fun s x => JsSet.add x s) l acc)
    /\ forall x, In x (fold_left (fun s x => JsSet.add x s) l acc) <-> In x acc \/ In x l.
Proof.
  induction l as [|y l IH]; intros acc Hacc; cbn [fold_left].
  - split; [exact Hacc|]. intros x. cbn. intuition.
  - destruct (IH (JsSet.add y acc) (JsSet_add_NoDup y acc Hacc)) as [Hnd Hin].
    split; [exact Hnd|]. intros x. rewrite Hin, JsSet_add_In. cbn. intuition.
Qed.

(** [new Set(l)] holds exactly the elements of [l], each once. *)
Lemma JsSet_from_list (l : list string) :
  NoDup (JsSet.from_list l) /\ forall x, In x (JsSet.from_list l) <-> In x l.
Proof.
  destruct (JsSet_fill l JsSet.empty (NoDup_nil_2 (A:=string))) as [Hnd Hin].
  split; [exact Hnd|]. intros x. rewrite Hin. cbn. intuition.
Qed.

(** ** The remaining operations *)

Lemma no_store_write (calls : list Call) (r : Db.PendingPR) :
  count is_store_write calls = 0%nat -> ~ In (CallSetPendingPR r) calls.
Proof.
  unfold count. induction calls as [|c calls IH]; intros Hc Hin; [exact Hin|].
  cbn in Hc. destruct Hin as [->|Hin].
  - cbn in Hc. discriminate.
  - destruct (is_store_write c); [discriminate | now apply IH].
Qed.

Section Operations.
Context {H D : Type} `{!Client H} `{!Db.Database D} `{!Codec}.

Lemma after_quiet (op : Op) (w : World H D) :
  (forall p head, op <> OpMergePR p head) -> quiet w (after op w).
Proof.
  intros Hop. destruct op; cbn [after].
  - apply createFailureIssue_quiet.
  - apply addComment_quiet.
  - apply updatePR_quiet.
  - apply getRequiredChecks_quiet.
  - now destruct (Hop pendingPR head).
  - apply getOwners_quiet.
Qed.

(** C2: no operation produces a blocked record without its issue: a
    record found in the heap after an operation is either the record
    that was there before or one that satisfies [action = Blocked =>
    githubIssue set], every record an operation hands to the store
    satisfies it, and so the invariant carries over from the heap before
    to the heap after. *)
Theorem blocked_records_carry_issue (op : Op) (w : World H D) :
  (forall p r', heap (after op w) !! p = Some r' ->
                heap w !! p = Some r' \/ Db.blocked_has_issue r' = true)
  /\ (exists calls,
        trace (after op w) = (trace w ++ calls)%list
        /\ forall r', In (CallSetPendingPR r') calls ->
                      Db.blocked_has_issue r' = true)
  /\ ((forall p r, heap w !! p = Some r -> Db.action r = Db.Blocked ->
                    exists issueID, Db.githubIssue r = Some issueID) ->
      forall p r', heap (after op w) !! p = Some r' -> Db.action r' = Db.Blocked ->
                   exists issueID, Db.githubIssue r' = Some issueID).
Proof.
  assert (Hmain :
    (forall p r', heap (after op w) !! p = Some r' ->
                  heap w !! p = Some r' \/ Db.blocked_has_issue r' = true)
    /\ (exists calls,
          trace (after op w) = (trace w ++ calls)%list
          /\ forall r', In (CallSetPendingPR r') calls ->
                        Db.blocked_has_issue r' = true)).
  { destruct op as [| | | |pendingPR head|];
      try (match goal with
           | |- context [after ?op w] =>
               destruct (after_quiet op w ltac:(discriminate))
                 as (Hheap & _ & calls & Htrace & Hquiet & _)
           end;
           split;
           [intros p r' Hr'; left; now rewrite <- Hheap
           |exists calls; split; [exact Htrace|];
            intros r' Hin; now destruct (no_store_write calls r' Hquiet)]).
    cbn [after]. destruct (heap w !! pendingPR) as [r|] eqn:Hp.
    - rewrite (mergePR_run w pendingPR r head Hp). cbv zeta.
      destruct (pulls_merge _ (host w)) as [[resp|e] h1].
      + cbn [snd heap trace after_merge]. split; [now left|].
        eexists [_]. split; [reflexivity|]. now intros r' [|[]].
      + unfold report_failed_merge. rewrite createFailureIssue_run.
        cbn [host after_merge].
        destruct (issues_create _ h1) as [[resp|e'] h2];
          cbn [fst snd heap host store trace after_merge].
        * split.
          -- intros p r' Hr'.
             destruct (decide (pendingPR = p)) as [<-|Hne].
             ++ rewrite lookup_insert_eq in Hr'. injection Hr' as <-.
                right. apply blocked_by_has_issue.
             ++ rewrite lookup_insert_ne in Hr' by exact Hne. now left.
          -- eexists [_; _; _]. split; [now rewrite <- !app_assoc|].
             intros r' [Hin|[Hin|[Hin|[]]]]; try discriminate.
             injection Hin as <-. apply blocked_by_has_issue.
        * split; [now left|].
          eexists [_; _]. split; [now rewrite <- !app_assoc|].
          intros r' [Hin|[Hin|[]]]; discriminate.
    - rewrite mergePR_dangling by exact Hp. split; [now left|].
      exists []. split; [now rewrite app_nil_r | intros r' []]. }
  destruct Hmain as [Hheap Hcalls]. split; [exact Hheap|]. split; [exact Hcalls|].
  intros Hinv p r' Hr'. destruct (Hheap p r' Hr') as [Hold|Hnew].
  - exact (Hinv p r' Hold).
  - now apply blocked_has_issue_spec.
Qed.

(** C4 (as the code has it): for [upstreamPRIDs = [101, 102]], the
    reason ["stale head"] and no [prID], the issue that is created has
    [#101] and [#102] in its title and the notice that syncing is paused
    for the branch in its body; a truthy [err] is printed verbatim
    between two fences; the number the host reports is returned. *)
Theorem createFailureIssue_stale_head_report (w : World H D)
    (org repo upstreamOrg branch : string)
    (assignees patchCmd : option (list string)) (err : Js.value) :
  let p := failure_issue org repo upstreamOrg branch [101; 102] "stale head"
             None assignees patchCmd err in
  let res := createFailureIssue org repo upstreamOrg branch [101; 102]
               "stale head" None assignees patchCmd err w in
  trace (snd res) = (trace w ++ [CallIssuesCreate p])%list
  /\ includes "#101" (IssuesCreate.title p) = true
  /\ includes "#102" (IssuesCreate.title p) = true
  /\ includes (paused_notice org repo branch) (IssuesCreate.body p) = true
  /\ (Js.truthy err = true ->
      includes (fence +:+ LF +:+ Js.toString err +:+ LF +:+ fence)
        (IssuesCreate.body p) = true)
  /\ fst res = match fst (issues_create p (host w)) with
               | Ok resp => Ok (IssuesCreate.number (data resp))
               | Throw e => Throw e
               end.
Proof.
  intros p res. subst res. rewrite createFailureIssue_run. fold p.
  cbn [fst snd trace]. split; [reflexivity|].
  split; [apply (failure_title_lists_ids [101; 102] 101); cbn; tauto|].
  split; [apply (failure_title_lists_ids [101; 102] 102); cbn; tauto|].
  split; [apply failure_body_paused|].
  split; [apply failure_body_fenced_error | reflexivity].
Qed.

(** C6 (as the code has it): when the content request is rejected, for a
    missing file as for any other reason, [getOwners] rejects with
    [Error("failed to retrieve OWNERS file: ...")] around the cause; it
    does not return the empty list. *)
Theorem getOwners_retrieval_error (w : World H D)
    (organization repoName branchName : string) (e : Js.value) (h1 : H) :
  repos_getContent (owners_request organization repoName branchName) (host w)
    = (Throw e, h1) ->
  fst (getOwners organization repoName branchName w) = Throw (owners_error e)
  /\ includes "failed to retrieve OWNERS file: "
       (Js.toString (owners_error e)) = true.
Proof.
  intros Hget. rewrite getOwners_run. cbv zeta. rewrite Hget. cbn [fst].
  split; [reflexivity|].
  apply includes_spec. now exists "Error: ", (Js.toString e).
Qed.

(** C7: with the branch read, [getRequiredChecks] returns the empty set
    when protection is not enabled or there is no required-status-checks
    policy, and otherwise the set of the configured contexts: the same
    names, none twice. *)
Theorem getRequiredChecks_set (w : World H D)
    (organization repoName branchName : string)
    (resp : Response ReposGetBranch.payload) (h1 : H) :
  repos_getBranch {| ReposGetBranch.owner := organization;
                     ReposGetBranch.repo := repoName;
                     ReposGetBranch.branch := branchName |} (host w)
    = (Ok resp, h1) ->
  let protection := ReposGetBranch.protection (data resp) in
  let res := fst (getRequiredChecks organization repoName branchName w) in
  ((ReposGetBranch.enabled protection <> Some true
    \/ ReposGetBranch.required_status_checks protection = None) ->
   res = Ok JsSet.empty /\ JsSet.size JsSet.empty = 0%nat)
  /\ (forall checks,
        ReposGetBranch.enabled protection = Some true ->
        ReposGetBranch.required_status_checks protection = Some checks ->
        exists s, res = Ok s /\ NoDup s
                  /\ forall x, In x s <-> In x (ReposGetBranch.contexts checks)).
Proof.
  intros Hget protection res. subst res.
  unfold getRequiredChecks, bind, request, ret. rewrite Hget. fold protection.
  split.
  - intros [Hoff|Hnone]; (split; [|reflexivity]).
    + destruct (ReposGetBranch.enabled protection) as [[|]|]; try reflexivity.
      now destruct Hoff.
    + rewrite Hnone. now destruct (ReposGetBranch.enabled protection) as [[|]|].
  - intros checks Hon Hchecks. rewrite Hon, Hchecks.
    exists (JsSet.from_list (ReposGetBranch.contexts checks)).
    split; [reflexivity|]. apply JsSet_from_list.
Qed.

End Operations.

(** ** [updatePR] *)

Section UpdatePR.
Context {H D : Type} `{!Client H} `{!Db.Database D}.

(** C8 (as the code has it): with the pull request read, [updatePR]
    returns [undefined] and makes no update call when the body is absent
    ([null]); for every other body, the empty string included, it makes
    exactly one update call, whose body is the existing body, two line
    feeds and the message. *)
Theorem updatePR_appends_to_body (w : World H D) (org repo : string) (id : Z)
    (assignees : list string) (message : string)
    (resp : Response PullsGet.payload) (h1 : H) :
  let p := {| PullsGet.owner := org; PullsGet.repo := repo;
              PullsGet.pull_number := id |} in
  pulls_get p (host w) = (Ok resp, h1) ->
  let res := updatePR org repo id assignees message w in
  (PullsGet.body (data resp) = None ->
     fst res = Ok Js.Undefined
     /\ trace (snd res) = (trace w ++ [CallPullsGet p])%list
     /\ count is_update (trace (snd res)) = count is_update (trace w))
  /\ (forall body,
        PullsGet.body (data resp) = Some body ->
        exists q,
          trace (snd res) = (trace w ++ [CallPullsGet p; CallPullsUpdate q])%list
          /\ PullsUpdate.body q = body +:+ LF +:+ LF +:+ message
          /\ PullsUpdate.pull_number q = id
          /\ count is_update (trace (snd res)) = S (count is_update (trace w))).
Proof.
  intros p Hget res. subst res. rewrite updatePR_run. fold p. rewrite Hget.
  split.
  - intros Hbody. rewrite Hbody. cbn [fst snd trace].
    split; [reflexivity|]. split; [reflexivity|].
    rewrite count_app. unfold count at 2. cbn. lia.
  - intros body Hbody. rewrite Hbody. cbv zeta. cbn [fst snd trace].
    eexists. split; [reflexivity|]. split; [reflexivity|]. split; [reflexivity|].
    rewrite count_app. unfold count at 2. cbn. lia.
Qed.

(** C9: with the pull request read, every update [updatePR] issues
    carries the logins of the assignees the pull request already has
    when it has any, and the assignees the caller supplied only when it
    has none; the update is issued whenever there is a body to append
    to. *)
Theorem updatePR_keeps_existing_assignees (w : World H D) (org repo : string)
    (id : Z) (assignees : list string) (message : string)
    (resp : Response PullsGet.payload) (h1 : H) :
  pulls_get {| PullsGet.owner := org; PullsGet.repo := repo;
               PullsGet.pull_number := id |} (host w) = (Ok resp, h1) ->
  let res := updatePR org repo id assignees message w in
  exists calls,
    trace (snd res) = (trace w ++ calls)%list
    /\ (forall u us,
          PullsGet.assignees (data resp) = Some (u :: us) ->
          forall q, In (CallPullsUpdate q) calls ->
                    PullsUpdate.assignees q = map PullsGet.login (u :: us))
    /\ (PullsGet.assignees (data resp) = None
        \/ PullsGet.assignees (data resp) = Some [] ->
        forall q, In (CallPullsUpdate q) calls ->
                  PullsUpdate.assignees q = assignees)
    /\ (forall body,
          PullsGet.body (data resp) = Some body ->
          count is_update calls = 1%nat).
Proof.
  intros Hget res. subst res. rewrite updatePR_run. cbv zeta. rewrite Hget.
  destruct (PullsGet.body (data resp)) as [body|]; cbn [snd trace].
  - eexists [_; _]. split; [reflexivity|].
    split; [|split].
    + intros u us Hex q [Hq|[Hq|[]]]; [discriminate|].
      injection Hq as <-. cbn [PullsUpdate.assignees]. now rewrite Hex.
    + intros Hnone q [Hq|[Hq|[]]]; [discriminate|].
      injection Hq as <-. cbn [PullsUpdate.assignees].
      now destruct Hnone as [-> | ->].
    + reflexivity.
  - eexists [_]. split; [reflexivity|].
    split; [|split].
    + intros u us _ q [Hq|[]]. discriminate.
    + intros _ q [Hq|[]]. discriminate.
    + discriminate.
Qed.

End UpdatePR.

(** ** Runs on the scripted host *)

Lemma Mock_rejects_stale_head : rejects_stale_head Mock.current_head.
Proof.
  intros p h Hstale. unfold Mock.current_head in Hstale. cbn.
  destruct (String.eqb_spec (PullsMerge.sha p) (Mock.pr_head h)) as [Heq|Hne].
  - now rewrite Heq in Hstale.
  - now eexists.
Qed.

(** The fork's pull request moved to [c0ffee]; merging at [beef] is
    rejected, issue 12 is filed and the record is blocked by it. *)
Lemma mergePR_failure_blocks_record_witness :
  fst (mergePR 1%positive "beef" (Mock.world Mock.hub)) = Ok false
  /\ heap (snd (mergePR 1%positive "beef" (Mock.world Mock.hub))) !! 1%positive
       = Some (blocked_by 12 Mock.pending)
  /\ count is_merge (trace (snd (mergePR 1%positive "beef" (Mock.world Mock.hub))))
       = 1%nat.
Proof.
  edestruct (mergePR_failure_blocks_record (Mock.world Mock.hub) 1%positive
               Mock.pending "beef")
    as (Hres & Hheap & _ & _ & _ & _ & Hcount); [reflexivity..|].
  split; [exact Hres|]. split; [|exact Hcount].
  rewrite Hheap. reflexivity.
Defined.

Lemma mergePR_report_failure_propagates_witness :
  fst (mergePR 1%positive "beef" (Mock.world (Mock.with_issues false Mock.hub)))
    = Throw (Mock.http_error "Issues are disabled for this repo")
  /\ heap (snd (mergePR 1%positive "beef"
                  (Mock.world (Mock.with_issues false Mock.hub)))) !! 1%positive
       = Some Mock.pending
  /\ store (snd (mergePR 1%positive "beef"
                   (Mock.world (Mock.with_issues false Mock.hub)))) = ∅.
Proof.
  edestruct (mergePR_report_failure_propagates
               (Mock.world (Mock.with_issues false Mock.hub)) 1%positive
               Mock.pending "beef")
    as (Hres & _ & Hrec & Hstore & _); [reflexivity..|].
  split; [exact Hres|]. split; [exact Hrec | exact Hstore].
Defined.

Lemma mergePR_head_precondition_witness :
  fst (mergePR 1%positive "beef" (Mock.world Mock.hub)) <> Ok true
  /\ heap (snd (mergePR 1%positive "beef" (Mock.world Mock.hub))) !! 1%positive
       = Some (blocked_by 12 Mock.pending).
Proof.
  destruct (mergePR_head_precondition Mock.current_head (Mock.world Mock.hub)
              1%positive Mock.pending "beef" Mock_rejects_stale_head eq_refl)
    as (_ & _ & _ & _ & Hstale).
  destruct Hstale as (Hres & e & h1 & Hmerge & Hblocked & _); [discriminate|].
  split; [exact Hres|].
  injection Hmerge as <- <-. eapply Hblocked. reflexivity.
Defined.

(** C3, counterexample: the head is stale and the host rejects the merge,
    but issues are disabled on the fork: [mergePR] throws and the record
    is still [Pending], not [Blocked]. *)
Lemma mergePR_stale_head_stays_pending :
  let w := Mock.world (Mock.with_issues false Mock.hub) in
  Mock.current_head (host w) "stolostron" "config-policy-controller" (Some 7)
    <> Some "beef"
  /\ fst (mergePR 1%positive "beef" w)
       = Throw (Mock.http_error "Issues are disabled for this repo")
  /\ (exists r', heap (snd (mergePR 1%positive "beef" w)) !! 1%positive = Some r'
                 /\ Db.action r' = Db.Pending /\ Db.githubIssue r' = None).
Proof.
  split; [discriminate|]. split; [reflexivity|].
  exists Mock.pending. repeat split.
Qed.

(** C4, counterexample: an [err] that is supplied but falsy, the empty
    string or [false], leaves no fence and no text in the body. *)
Lemma createFailureIssue_falsy_error_unfenced :
  let body err :=
    IssuesCreate.body
      (failure_issue "stolostron" "config-policy-controller"
         "open-cluster-management-io" "main" [101; 102] "stale head" None
         None None err) in
  Js.Str "" <> Js.Undefined
  /\ includes fence (body (Js.Str "")) = false
  /\ Js.Bool false <> Js.Undefined
  /\ includes (Js.toString (Js.Bool false)) (body (Js.Bool false)) = false.
Proof. repeat split; try discriminate; vm_compute; reflexivity. Qed.

(** C5: the fork's [OWNERS] payload is well formed, and the code that
    reads a payload finds [alice] and [bob] in it; [getOwners] hands that
    code the response envelope instead of its [data] and returns the
    empty list. *)
Theorem getOwners_misses_payload :
  let w := Mock.world Mock.hub in
  let payload :=
    Js.Obj [("type", Js.Str "file"); ("encoding", Js.Str "base64");
            ("name", Js.Str "OWNERS"); ("content", Js.Str Mock.owners_base64)] in
  fst (repos_getContent (owners_request "stolostron" "config-policy-controller" "main")
         (host w)) = Ok (Mock.respond 200 payload)
  /\ fst (readOwners payload w) = Ok (Some [Js.Str "alice"; Js.Str "bob"])
  /\ fst (getOwners "stolostron" "config-policy-controller" "main" w) = Ok [].
Proof. repeat split. Qed.

(** A payload whose document has no [approvers] key yields no list. *)
Lemma readOwners_without_approvers :
  fst (readOwners (Js.Obj [("type", Js.Str "file");
                           ("content", Js.Str Mock.reviewers_base64)])
         (Mock.world Mock.hub)) = Ok None.
Proof. reflexivity. Qed.

Lemma getOwners_retrieval_error_witness :
  fst (getOwners "stolostron" "config-policy-controller" "main"
         (Mock.world (Mock.with_owners None Mock.hub)))
    = Throw (Js.Err "Error" "failed to retrieve OWNERS file: HttpError: Not Found").
Proof.
  edestruct (getOwners_retrieval_error
               (Mock.world (Mock.with_owners None Mock.hub))
               "stolostron" "config-policy-controller" "main")
    as (Hres & _); [reflexivity|].
  exact Hres.
Defined.

(** C6, counterexample: the branch has no [OWNERS] file, the host answers
    [404 Not Found], and [getOwners] rejects instead of returning the
    empty list. *)
Lemma getOwners_missing_file_rejects :
  let w := Mock.world (Mock.with_owners None Mock.hub) in
  Mock.owners_file (host w) = None
  /\ fst (getOwners "stolostron" "config-policy-controller" "main" w)
       = Throw (Js.Err "Error" "failed to retrieve OWNERS file: HttpError: Not Found")
  /\ fst (getOwners "stolostron" "config-policy-controller" "main" w) <> Ok [].
Proof. repeat split. discriminate. Qed.

Lemma getRequiredChecks_set_witness :
  exists s,
    fst (getRequiredChecks "stolostron" "config-policy-controller" "main"
           (Mock.world Mock.hub)) = Ok s
    /\ NoDup s /\ forall x, In x s <-> In x ["lint"; "test"; "lint"].
Proof.
  edestruct (getRequiredChecks_set (Mock.world Mock.hub)
               "stolostron" "config-policy-controller" "main")
    as (_ & Hset); [reflexivity|].
  exact (Hset _ eq_refl eq_refl).
Defined.

Lemma updatePR_appends_to_body_witness :
  exists q,
    trace (snd (updatePR "stolostron" "config-policy-controller" 7 ["bob"]
                  "Closes #3." (Mock.world Mock.hub)))
      = [CallPullsGet {| PullsGet.owner := "stolostron";
                         PullsGet.repo := "config-policy-controller";
                         PullsGet.pull_number := 7 |};
         CallPullsUpdate q]
    /\ PullsUpdate.body q = "Syncing upstream." +:+ LF +:+ LF +:+ "Closes #3.".
Proof.
  edestruct (updatePR_appends_to_body (Mock.world Mock.hub)
               "stolostron" "config-policy-controller" 7 ["bob"] "Closes #3.")
    as (_ & Hsome); [reflexivity|].
  destruct (Hsome "Syncing upstream." eq_refl) as (q & Htrace & Hbody & _).
  exists q. split; [exact Htrace | exact Hbody].
Defined.

(** C8, counterexample: the pull request has the empty string for a body;
    [updatePR] still issues an update. *)
Lemma updatePR_empty_body_updates :
  let w := Mock.world (Mock.with_body (Some "") Mock.hub) in
  let res := updatePR "stolostron" "config-policy-controller" 7 ["bob"]
               "Closes #3." w in
  Mock.pr_body (host w) = Some ""
  /\ count is_update (trace (snd res)) = 1%nat
  /\ fst res = Ok Js.Undefined.
Proof. repeat split. Qed.

Lemma updatePR_keeps_existing_assignees_witness :
  exists calls,
    trace (snd (updatePR "stolostron" "config-policy-controller" 7 ["bob"]
                  "Closes #3." (Mock.world Mock.hub))) = calls
    /\ count is_update calls = 1%nat
    /\ forall q, In (CallPullsUpdate q) calls -> PullsUpdate.assignees q = ["alice"].
Proof.
  edestruct (updatePR_keeps_existing_assignees (Mock.world Mock.hub)
               "stolostron" "config-policy-controller" 7 ["bob"] "Closes #3.")
    as (calls & Htrace & Hkeep & _ & Hone); [reflexivity|].
  exists calls. split; [exact Htrace|].
  split; [exact (Hone _ eq_refl) | exact (Hkeep _ _ eq_refl)].
Defined.


(** * Further properties of the operations *)

(** ** Joined lists *)

Lemma includes_concat (sep : string) (l : list string) (x : string) :
  In x l -> includes x (String.concat sep l) = true.
Proof.
  induction l as [|y l IH]; intros Hin; [destruct Hin|].
  destruct l as [|z l].
  - destruct Hin as [->|[]]. apply includes_refl.
  - change (String.concat sep (y :: z :: l))
      with (y +:+ sep +:+ String.concat sep (z :: l)).
    destruct Hin as [->|Hin]; [apply includes_here|].
    do 2 apply includes_app_r. now apply IH.
Qed.

Lemma includes_sep_concat (sep : string) (l : list string) (x : string) :
  In x l -> includes (sep +:+ x) (sep +:+ String.concat sep l) = true.
Proof.
  induction l as [|y l IH]; intros Hin; [destruct Hin|].
  destruct l as [|z l].
  - destruct Hin as [->|[]]. apply includes_refl.
  - change (String.concat sep (y :: z :: l))
      with (y +:+ sep +:+ String.concat sep (z :: l)).
    destruct Hin as [->|Hin].
    + rewrite <- append_assoc. apply includes_here.
    + do 2 apply includes_app_r. now apply IH.
Qed.

(** ** The parts of the issue body *)

(** What stands before the optional parts of the body. *)
Lemma failure_body_head org repo upstreamOrg branch ids reason prID patchCmd err
    (x : string) :
  includes x
    ((LF +:+ "* " +:+ upstreamOrg +:+ "/" +:+ repo +:+ "#")
       +:+ join_numbers (LF +:+ "* " +:+ upstreamOrg +:+ "/" +:+ repo +:+ "#") ids
       +:+ LF +:+ LF) = true ->
  includes x
    (failure_body org repo upstreamOrg branch ids reason prID patchCmd err) = true.
Proof.
  intros Hx. unfold failure_body. apply includes_app_l.
  destruct patchCmd; [apply includes_app_l|];
    (destruct (Js.truthy err); [apply includes_app_l|]);
    apply includes_app_l;
    (destruct (number_truthy prID); [apply includes_app_l|]);
    do 3 apply includes_app_r; exact Hx.
Qed.

Lemma bullet_prefix (upstreamOrg repo : string) (id : Z) :
  bullet upstreamOrg repo id =
  (LF +:+ "* " +:+ upstreamOrg +:+ "/" +:+ repo +:+ "#") +:+ string_of_number id.
Proof. unfold bullet. now rewrite !append_assoc. Qed.

Section FailureIssue.
Context {H D : Type} `{!Client H} `{!Db.Database D}.

(** X1: whatever the other arguments, the issue [createFailureIssue]
    creates names every upstream pull request: [#id] is in the title and
    the line [* upstreamOrg/repo#id] is in the body. *)
Theorem createFailureIssue_lists_every_id (w : World H D)
    (org repo upstreamOrg branch : string) (upstreamPRIDs : list Z)
    (reason : string) (prID : option Z) (assignees patchCmd : option (list string))
    (err : Js.value) (id : Z) :
  In id upstreamPRIDs ->
  exists p,
    trace (snd (createFailureIssue org repo upstreamOrg branch upstreamPRIDs
                  reason prID assignees patchCmd err w))
      = (trace w ++ [CallIssuesCreate p])%list
    /\ includes ("#" +:+ string_of_number id) (IssuesCreate.title p) = true
    /\ includes (bullet upstreamOrg repo id) (IssuesCreate.body p) = true.
Proof.
  intros Hin. rewrite createFailureIssue_run. cbv zeta. cbn [snd trace].
  eexists. split; [reflexivity|]. cbn [IssuesCreate.title IssuesCreate.body failure_issue].
  split; [now apply failure_title_lists_ids|].
  apply failure_body_head. rewrite bullet_prefix.
  set (prPrefix := LF +:+ "* " +:+ upstreamOrg +:+ "/" +:+ repo +:+ "#").
  rewrite <- (append_assoc prPrefix (join_numbers prPrefix upstreamPRIDs)).
  apply includes_app_l. unfold join_numbers.
  apply includes_sep_concat. now apply in_map.
Qed.

(** X2: with no upstream pull request to name, the title ends in a bare
    [#] and the body has one line [* upstreamOrg/repo#] without a number;
    the issue is created all the same. *)
Theorem createFailureIssue_without_ids (w : World H D)
    (org repo upstreamOrg branch reason : string) (prID : option Z)
    (assignees patchCmd : option (list string)) (err : Js.value) :
  let p := failure_issue org repo upstreamOrg branch [] reason prID
             assignees patchCmd err in
  trace (snd (createFailureIssue org repo upstreamOrg branch [] reason prID
                assignees patchCmd err w))
    = (trace w ++ [CallIssuesCreate p])%list
  /\ IssuesCreate.title p = "😿 Failed to sync the upstream PRs: #"
  /\ includes (LF +:+ "* " +:+ upstreamOrg +:+ "/" +:+ repo +:+ "#" +:+ LF +:+ LF)
       (IssuesCreate.body p) = true.
Proof.
  intros p. rewrite createFailureIssue_run. fold p. cbn [snd trace].
  split; [reflexivity|]. split; [reflexivity|].
  apply failure_body_head.
  change (join_numbers (LF +:+ "* " +:+ upstreamOrg +:+ "/" +:+ repo +:+ "#") [])
    with "".
  change ("" +:+ LF +:+ LF) with (LF +:+ LF).
  rewrite !append_assoc. apply includes_refl.
Qed.

(** X3: a [prID] other than [0] puts the sentence that points at the
    fork's pull request into the body, and [prID = 0] gives the very issue
    that no [prID] gives. *)
Theorem createFailureIssue_pr_reference
    (org repo upstreamOrg branch : string) (upstreamPRIDs : list Z)
    (reason : string) (assignees patchCmd : option (list string))
    (err : Js.value) (n : Z) :
  n <> 0 ->
  includes (pr_notice n)
    (IssuesCreate.body
       (failure_issue org repo upstreamOrg branch upstreamPRIDs reason (Some n)
          assignees patchCmd err)) = true
  /\ failure_issue org repo upstreamOrg branch upstreamPRIDs reason (Some 0)
       assignees patchCmd err
     = failure_issue org repo upstreamOrg branch upstreamPRIDs reason None
         assignees patchCmd err.
Proof.
  intros Hn. split; [|reflexivity].
  cbn [IssuesCreate.body failure_issue]. unfold failure_body.
  assert (Htruthy : number_truthy (Some n) = true).
  { unfold number_truthy. apply negb_true_iff. now apply Z.eqb_neq. }
  rewrite Htruthy. apply includes_app_l.
  destruct patchCmd; [apply includes_app_l|];
    (destruct (Js.truthy err); [apply includes_app_l|]);
    apply includes_app_l, includes_app_r, includes_refl.
Qed.

(** X4: when [patchCmd] is supplied, the empty array included, the body
    has the block of commands, one per line between two fences, and so
    shows every command. *)
Theorem createFailureIssue_recreate_commands
    (org repo upstreamOrg branch : string) (upstreamPRIDs : list Z)
    (reason : string) (prID : option Z) (assignees : option (list string))
    (cmds : list string) (err : Js.value) :
  let body :=
    IssuesCreate.body
      (failure_issue org repo upstreamOrg branch upstreamPRIDs reason prID
         assignees (Some cmds) err) in
  includes (commands_block cmds) body = true
  /\ forall c, In c cmds -> includes c body = true.
Proof.
  intros body. subst body. cbn [IssuesCreate.body failure_issue].
  assert (Hblock : forall x,
            includes x (commands_block cmds) = true ->
            includes x (failure_body org repo upstreamOrg branch upstreamPRIDs
                          reason prID (Some cmds) err) = true).
  { intros x Hx. unfold failure_body. apply includes_app_l.
    apply includes_app_r, includes_app_r. exact Hx. }
  split; [apply Hblock, includes_refl|].
  intros c Hc. apply Hblock. unfold commands_block.
  do 5 apply includes_app_r. apply includes_app_l. now apply includes_concat.
Qed.

End FailureIssue.

(** ** More on [mergePR] *)

(** The reason [mergePR] gives ends in the text of the error. *)
Lemma failure_body_reason org repo upstreamOrg branch ids reason prID patchCmd err
    (x : string) :
  includes x reason = true ->
  includes x
    (failure_body org repo upstreamOrg branch ids reason prID patchCmd err) = true.
Proof.
  intros Hx. unfold failure_body. apply includes_app_l.
  destruct patchCmd; [apply includes_app_l|];
    (destruct (Js.truthy err); [apply includes_app_l|]);
    apply includes_app_l;
    (destruct (number_truthy prID); [apply includes_app_l|]);
    apply includes_app_r, includes_app_l; exact Hx.
Qed.

Section MergePRMore.
Context {H D : Type} `{!Client H} `{!Db.Database D}.

(** The first thing [mergePR] does with a live reference is to ask for
    the merge. *)
Lemma mergePR_first_call (w : World H D) (p : positive) (r : Db.PendingPR)
    (head : string) :
  heap w !! p = Some r ->
  exists rest,
    trace (snd (mergePR p head w))
      = (trace w ++ CallPullsMerge (merge_request r head) :: rest)%list.
Proof.
  intros Hp. rewrite (mergePR_run w p r head Hp). cbv zeta.
  destruct (pulls_merge _ (host w)) as [[resp|e] h1].
  - now exists [].
  - unfold report_failed_merge. rewrite createFailureIssue_run.
    cbn [host after_merge].
    destruct (issues_create _ h1) as [[resp|e'] h2];
      cbn [fst snd trace after_merge]; rewrite <- !app_assoc; now eexists.
Qed.

(** X5: when the host accepts the merge, [mergePR] returns [true] after
    that one call: no issue is created, the store is not written and the
    record is not touched (it is not set to [Merged]; that is left to the
    caller). *)
Theorem mergePR_success_leaves_record (w : World H D) (p : positive)
    (r : Db.PendingPR) (head : string) (resp : Response unit) (h1 : H) :
  heap w !! p = Some r ->
  pulls_merge (merge_request r head) (host w) = (Ok resp, h1) ->
  let res := mergePR p head w in
  fst res = Ok true
  /\ heap (snd res) = heap w
  /\ store (snd res) = store w
  /\ trace (snd res) = (trace w ++ [CallPullsMerge (merge_request r head)])%list.
Proof.
  intros Hp Hmerge res. subst res.
  rewrite (mergePR_run w p r head Hp). cbv zeta. rewrite Hmerge.
  now repeat split.
Qed.

(** X6: [mergePR] returns [true] exactly when the host accepted the merge,
    and it returns [false] only with the record blocked by an issue and
    that record handed to [db.setPendingPR]. *)
Theorem mergePR_result_meaning (w : World H D) (p : positive)
    (r : Db.PendingPR) (head : string) :
  heap w !! p = Some r ->
  let res := mergePR p head w in
  (fst res = Ok true <->
   exists resp h1, pulls_merge (merge_request r head) (host w) = (Ok resp, h1))
  /\ (fst res = Ok false ->
      exists issueID,
        heap (snd res) !! p = Some (blocked_by issueID r)
        /\ In (CallSetPendingPR (blocked_by issueID r)) (trace (snd res))).
Proof.
  intros Hp res. subst res.
  rewrite (mergePR_run w p r head Hp). cbv zeta.
  destruct (pulls_merge _ (host w)) as [[resp|e] h1] eqn:Hmerge.
  - cbn [fst snd]. split; [|discriminate].
    split; [intros _; now exists resp, h1 | reflexivity].
  - destruct (report_failed_merge r e _) as [[issueID|e'] w2]; cbn [fst snd heap trace].
    + split.
      * split; [|intros (? & ? & ?); discriminate].
        now destruct (Db.setPendingPR _ _) as [[[]|?] ?].
      * intros _. exists issueID. split; [apply lookup_insert_eq|].
        apply in_or_app. right. now left.
    + split; [|discriminate].
      split; [discriminate | intros (? & ? & ?); discriminate].
Qed.

(** X7: when the store rejects the write, [mergePR] throws the store's
    error; by then the issue exists and the object in memory is already
    blocked by it: nothing is rolled back. *)
Theorem mergePR_store_failure_keeps_mutation (w : World H D) (p : positive)
    (r : Db.PendingPR) (head : string) (e : Js.value) (h1 : H)
    (issueID : Z) (w2 : World H D) (e'' : Js.value) (d' : D) :
  heap w !! p = Some r ->
  pulls_merge (merge_request r head) (host w) = (Throw e, h1) ->
  report_failed_merge r e (after_merge w (merge_request r head) h1)
    = (Ok issueID, w2) ->
  Db.setPendingPR (blocked_by issueID r) (store w) = (Throw e'', d') ->
  let res := mergePR p head w in
  fst res = Throw e''
  /\ heap (snd res) !! p = Some (blocked_by issueID r)
  /\ Db.action (blocked_by issueID r) = Db.Blocked
  /\ count is_merge (trace (snd res)) = S (count is_merge (trace w))
  /\ exists issue, In (CallIssuesCreate issue) (trace (snd res)).
Proof.
  intros Hp Hmerge Hissue Hstore res. subst res.
  rewrite (mergePR_run w p r head Hp). cbv zeta. rewrite Hmerge, Hissue.
  unfold report_failed_merge in Hissue. rewrite createFailureIssue_run in Hissue.
  injection Hissue as Hid Hw2. subst w2.
  cbn [fst snd heap host store trace after_merge].
  rewrite Hstore. cbn [fst snd].
  split; [reflexivity|]. split; [apply lookup_insert_eq|]. split; [reflexivity|].
  rewrite <- !app_assoc. cbn [app]. split.
  - rewrite count_app. unfold count at 2. cbn. lia.
  - eexists. apply in_or_app. right. right. now left.
Qed.

(** X8: [mergePR] changes no record but the one it was given. *)
Theorem mergePR_frame (w : World H D) (p q : positive) (head : string) :
  q <> p ->
  heap (snd (mergePR p head w)) !! q = heap w !! q.
Proof.
  intros Hq. destruct (heap w !! p) as [r|] eqn:Hp.
  - rewrite (mergePR_run w p r head Hp). cbv zeta.
    destruct (pulls_merge _ (host w)) as [[resp|e] h1]; [reflexivity|].
    unfold report_failed_merge. rewrite createFailureIssue_run.
    cbn [host after_merge].
    destruct (issues_create _ h1) as [[resp|e'] h2];
      cbn [fst snd heap after_merge]; [|reflexivity].
    now apply lookup_insert_ne.
  - now rewrite mergePR_dangling.
Qed.

(** X9: the issue [mergePR] files after a rejected merge is created on the
    fork, assigned to the upstream authors, carries the text of the
    host's error in its body and names every upstream pull request in its
    title. *)
Theorem mergePR_issue_reports_error (w : World H D) (p : positive)
    (r : Db.PendingPR) (head : string) (e : Js.value) (h1 : H) :
  heap w !! p = Some r ->
  pulls_merge (merge_request r head) (host w) = (Throw e, h1) ->
  exists issue rest,
    trace (snd (mergePR p head w))
      = (trace w ++ CallPullsMerge (merge_request r head)
                 :: CallIssuesCreate issue :: rest)%list
    /\ IssuesCreate.owner issue = Db.organization (Db.repo r)
    /\ IssuesCreate.repo issue = Db.name (Db.repo r)
    /\ IssuesCreate.assignees issue = Some (Db.upstreamAuthors r)
    /\ includes (Js.toString e) (IssuesCreate.body issue) = true
    /\ includes (paused_notice (Db.organization (Db.repo r)) (Db.name (Db.repo r))
                   (Db.branch r)) (IssuesCreate.body issue) = true
    /\ forall id, In id (Db.upstreamPRIDs r) ->
                  includes ("#" +:+ string_of_number id) (IssuesCreate.title issue) = true.
Proof.
  intros Hp Hmerge.
  rewrite (mergePR_run w p r head Hp). cbv zeta. rewrite Hmerge.
  unfold report_failed_merge. rewrite createFailureIssue_run.
  cbn [host after_merge].
  set (issue := failure_issue _ _ _ _ _ _ _ _ _ _).
  assert (Hfacts :
    IssuesCreate.owner issue = Db.organization (Db.repo r)
    /\ IssuesCreate.repo issue = Db.name (Db.repo r)
    /\ IssuesCreate.assignees issue = Some (Db.upstreamAuthors r)
    /\ includes (Js.toString e) (IssuesCreate.body issue) = true
    /\ includes (paused_notice (Db.organization (Db.repo r)) (Db.name (Db.repo r))
                   (Db.branch r)) (IssuesCreate.body issue) = true
    /\ forall id, In id (Db.upstreamPRIDs r) ->
                  includes ("#" +:+ string_of_number id) (IssuesCreate.title issue) = true).
  { repeat split.
    - apply failure_body_reason. unfold merge_failure_reason.
      do 3 apply includes_app_r. apply includes_refl.
    - apply failure_body_paused.
    - intros id Hid. now apply failure_title_lists_ids. }
  exists issue.
  destruct (issues_create issue h1) as [[resp|e'] h2];
    cbn [fst snd trace after_merge]; rewrite <- !app_assoc; cbn [app];
    eexists; (split; [reflexivity | exact Hfacts]).
Qed.

(** X10: [mergePR] does not look at [action]: called again on the record
    it has just blocked, it asks the host for the merge once more. *)
Theorem mergePR_retries_blocked_record (w : World H D) (p : positive)
    (r : Db.PendingPR) (head head' : string) :
  heap w !! p = Some r ->
  fst (mergePR p head w) = Ok false ->
  let w1 := snd (mergePR p head w) in
  (exists issueID, heap w1 !! p = Some (blocked_by issueID r))
  /\ exists rest,
       trace (snd (mergePR p head' w1))
         = (trace w1 ++ CallPullsMerge (merge_request r head') :: rest)%list.
Proof.
  intros Hp Hfalse w1.
  assert (Hblocked : exists issueID, heap w1 !! p = Some (blocked_by issueID r)).
  { subst w1. revert Hfalse.
    rewrite (mergePR_run w p r head Hp). cbv zeta.
    destruct (pulls_merge _ (host w)) as [[resp|e] h1]; [discriminate|].
    destruct (report_failed_merge r e _) as [[issueID|e'] w2];
      cbn [fst snd heap]; [|discriminate].
    intros _. exists issueID. apply lookup_insert_eq. }
  split; [exact Hblocked|].
  destruct Hblocked as [issueID Hp1].
  exact (mergePR_first_call w1 p (blocked_by issueID r) head' Hp1).
Qed.

End MergePRMore.

(** ** More on the host-only operations *)

Lemma JsSet_fill_distinct (l : list string) :
  forall acc : JsSet.t,
    NoDup (acc ++ l) ->
    fold_left (fun s x => JsSet.add x s) l acc = (acc ++ l)%list.
Proof.
  induction l as [|y l IH]; intros acc Hnd; cbn [fold_left].
  - now rewrite app_nil_r.
  - assert (Hy : existsb (String.eqb y) acc = false).
    { destruct (existsb (String.eqb y) acc) eqn:Hex; [|reflexivity].
      apply existsb_eqb_In in Hex. apply NoDup_app in Hnd.
      destruct Hnd as (_ & Hdisj & _).
      destruct (Hdisj y); [now apply list_elem_of_In | left]. }
    unfold JsSet.add at 2. rewrite Hy.
    rewrite IH; [now rewrite <- app_assoc|].
    now rewrite <- app_assoc.
Qed.

Lemma JsSet_fill_length (l : list string) :
  forall acc : JsSet.t,
    (length (fold_left (fun s x => JsSet.add x s) l acc) <= length acc + length l)%nat.
Proof.
  induction l as [|y l IH]; intros acc; cbn [fold_left length]; [lia|].
  specialize (IH (JsSet.add y acc)).
  assert (length (JsSet.add y acc) <= S (length acc))%nat; [|lia].
  unfold JsSet.add. destruct (existsb _ acc); [lia|].
  rewrite length_app. cbn. lia.
Qed.

Section HostOnlyMore.
Context {H D : Type} `{!Client H} `{!Db.Database D} `{!Codec}.

(** X11: [addComment] never throws: it makes the one comment call and
    returns [undefined] when the host accepts it, and the thrown error, as
    a value, when the host rejects it. *)
Theorem addComment_returns_errors (w : World H D) (org repo : string) (id : Z)
    (message : string) :
  let p := {| IssuesCreateComment.owner := org;
              IssuesCreateComment.repo := repo;
              IssuesCreateComment.issue_number := id;
              IssuesCreateComment.body := message |} in
  let res := addComment org repo id message w in
  trace (snd res) = (trace w ++ [CallIssuesCreateComment p])%list
  /\ (forall resp h1, issues_createComment p (host w) = (Ok resp, h1) ->
                      fst res = Ok Js.Undefined)
  /\ (forall e h1, issues_createComment p (host w) = (Throw e, h1) ->
                   fst res = Ok e)
  /\ (forall e, fst res <> Throw e).
Proof.
  intros p res. subst res. unfold addComment, try_catch, bind, request, ret. fold p.
  destruct (issues_createComment p (host w)) as [[resp|e] h1]; cbn [fst snd trace];
    repeat split; try discriminate; intros; congruence.
Qed.

(** X12: [updatePR] never throws either: a rejected read is returned as a
    value and no update is attempted, and a rejected update is returned as
    a value. *)
Theorem updatePR_returns_errors (w : World H D) (org repo : string) (id : Z)
    (assignees : list string) (message : string) :
  let p := {| PullsGet.owner := org; PullsGet.repo := repo;
              PullsGet.pull_number := id |} in
  let res := updatePR org repo id assignees message w in
  exists calls,
    trace (snd res) = (trace w ++ calls)%list
    /\ (forall e, fst res <> Throw e)
    /\ (forall e h1, pulls_get p (host w) = (Throw e, h1) ->
                     fst res = Ok e /\ calls = [CallPullsGet p])
    /\ (forall resp h1 q e h2,
          pulls_get p (host w) = (Ok resp, h1) ->
          In (CallPullsUpdate q) calls ->
          pulls_update q h1 = (Throw e, h2) ->
          fst res = Ok e).
Proof.
  intros p res. subst res. rewrite updatePR_run. fold p.
  destruct (pulls_get p (host w)) as [[resp|e] h1].
  - destruct (PullsGet.body (data resp)) as [body|]; cbv zeta; cbn [fst snd trace].
    + set (Q := {| PullsUpdate.owner := org; PullsUpdate.repo := _;
                   PullsUpdate.pull_number := _; PullsUpdate.body := _;
                   PullsUpdate.assignees := _ |}).
      exists [CallPullsGet p; CallPullsUpdate Q].
      split; [reflexivity|]. split; [|split].
      * intros e. now destruct (pulls_update _ h1) as [[?|?] ?].
      * intros e h1' Hget. discriminate.
      * intros resp' h1' q e h2 Hget Hin Hupd.
        injection Hget as <- <-.
        destruct Hin as [Hin|[Hin|[]]]; [discriminate|].
        injection Hin as <-. now rewrite Hupd.
    + exists [CallPullsGet p].
      split; [reflexivity|]. split; [discriminate|]. split; [intros; discriminate|].
      intros resp' h1' q e h2 _ Hin _.
      destruct Hin as [Hin|[]]. discriminate.
  - cbn [fst snd trace]. exists [CallPullsGet p].
    split; [reflexivity|]. split; [discriminate|]. split.
    + intros e' h1' Hget. injection Hget as <- <-. now split.
    + intros; discriminate.
Qed.

(** X13: [updatePR] reads before it writes and writes at most once; an
    update it issues goes to the pull request it read and its body ends in
    two line feeds and the message. *)
Theorem updatePR_single_update (w : World H D) (org repo : string) (id : Z)
    (assignees : list string) (message : string) :
  exists calls,
    trace (snd (updatePR org repo id assignees message w))
      = (trace w ++ CallPullsGet {| PullsGet.owner := org; PullsGet.repo := repo;
                                    PullsGet.pull_number := id |} :: calls)%list
    /\ (count is_update calls <= 1)%nat
    /\ forall q, In (CallPullsUpdate q) calls ->
                 PullsUpdate.owner q = org
                 /\ PullsUpdate.repo q = repo
                 /\ PullsUpdate.pull_number q = id
                 /\ exists existing,
                      PullsUpdate.body q = existing +:+ LF +:+ LF +:+ message.
Proof.
  rewrite updatePR_run. cbv zeta.
  destruct (pulls_get _ (host w)) as [[resp|e] h1].
  - destruct (PullsGet.body (data resp)) as [body|]; cbn [snd trace].
    + eexists [_]. split; [reflexivity|]. split; [cbn; lia|].
      intros q [Hq|[]]. injection Hq as <-. cbn. repeat split. now exists body.
    + exists []. split; [reflexivity|]. split; [cbn; lia | intros q []].
  - exists []. split; [reflexivity|]. split; [cbn; lia | intros q []].
Qed.

(** X14: a branch that cannot be read makes [getRequiredChecks] throw the
    host's error; it never answers such a failure with a set. *)
Theorem getRequiredChecks_lookup_failure (w : World H D)
    (organization repoName branchName : string) :
  let p := {| ReposGetBranch.owner := organization;
              ReposGetBranch.repo := repoName;
              ReposGetBranch.branch := branchName |} in
  let res := getRequiredChecks organization repoName branchName w in
  trace (snd res) = (trace w ++ [CallReposGetBranch p])%list
  /\ (forall e h1, repos_getBranch p (host w) = (Throw e, h1) -> fst res = Throw e)
  /\ (forall s, fst res = Ok s ->
                exists resp h1, repos_getBranch p (host w) = (Ok resp, h1)).
Proof.
  intros p res. subst res. unfold getRequiredChecks, bind, request, ret. fold p.
  destruct (repos_getBranch p (host w)) as [[resp|e] h1].
  - split; [|split].
    + now destruct (ReposGetBranch.enabled _) as [[|]|];
        try destruct (ReposGetBranch.required_status_checks _).
    + intros; discriminate.
    + intros s _. now exists resp, h1.
  - cbn [fst snd trace]. split; [reflexivity|]. split.
    + intros e' h1' Hget. now injection Hget as <- <-.
    + intros; discriminate.
Qed.

(** X15: the set [getRequiredChecks] returns is never larger than the
    list of configured contexts, [has] answers membership in that list,
    and when the list has no repeats the set lists the contexts in the
    configured order. *)
Theorem getRequiredChecks_keeps_contexts (w : World H D)
    (organization repoName branchName : string)
    (resp : Response ReposGetBranch.payload) (h1 : H)
    (checks : ReposGetBranch.status_checks) :
  repos_getBranch {| ReposGetBranch.owner := organization;
                     ReposGetBranch.repo := repoName;
                     ReposGetBranch.branch := branchName |} (host w)
    = (Ok resp, h1) ->
  ReposGetBranch.enabled (ReposGetBranch.protection (data resp)) = Some true ->
  ReposGetBranch.required_status_checks (ReposGetBranch.protection (data resp))
    = Some checks ->
  exists s,
    fst (getRequiredChecks organization repoName branchName w) = Ok s
    /\ (JsSet.size s <= length (ReposGetBranch.contexts checks))%nat
    /\ (forall x, JsSet.has x s = true <-> In x (ReposGetBranch.contexts checks))
    /\ (NoDup (ReposGetBranch.contexts checks) ->
        s = ReposGetBranch.contexts checks).
Proof.
  intros Hget Hon Hchecks.
  unfold getRequiredChecks, bind, request, ret. rewrite Hget, Hon, Hchecks.
  eexists. split; [reflexivity|]. unfold JsSet.size, JsSet.has, JsSet.from_list.
  split; [apply (JsSet_fill_length _ JsSet.empty)|]. split.
  - intros x. rewrite existsb_eqb_In. apply JsSet_from_list.
  - intros Hnd. now apply (JsSet_fill_distinct _ JsSet.empty).
Qed.

(** X16: [getOwners] makes one call, the content request for [OWNERS] at
    the branch; a fulfilled request is always answered with the empty
    list, whatever the payload and the decoders, and what it throws is
    always the wrapped retrieval error. *)
Theorem getOwners_single_request (w : World H D)
    (organization repoName branchName : string) :
  let res := getOwners organization repoName branchName w in
  trace (snd res)
    = (trace w ++ [CallReposGetContent
                     {| ReposGetContent.owner := organization;
                        ReposGetContent.repo := repoName;
                        ReposGetContent.path := "OWNERS";
                        ReposGetContent.ref := branchName;
                        ReposGetContent.mediaType_format :=
                          "application/vnd.github+json" |}])%list
  /\ (forall approvers, fst res = Ok approvers -> approvers = [])
  /\ (forall e, fst res = Throw e -> exists cause, e = owners_error cause).
Proof.
  intros res. subst res. rewrite getOwners_run. cbv zeta. cbn [fst snd trace].
  split; [reflexivity|].
  destruct (fst (repos_getContent _ (host w))) as [resp|e]; split.
  - intros approvers Hok. now injection Hok as <-.
  - intros; discriminate.
  - intros; discriminate.
  - intros e' Hthrow. injection Hthrow as <-. now exists e.
Qed.

(** X17: apart from [mergePR], no operation touches a record or the
    store, asks for a merge or writes to the database. *)
Theorem host_only_operations (op : Op) (w : World H D) :
  (forall p head, op <> OpMergePR p head) ->
  heap (after op w) = heap w
  /\ store (after op w) = store w
  /\ exists calls,
       trace (after op w) = (trace w ++ calls)%list
       /\ count is_merge calls = 0%nat
       /\ count is_store_write calls = 0%nat.
Proof.
  intros Hop. destruct (after_quiet op w Hop) as (Hheap & Hstore & calls & Ht & Hs & Hm).
  split; [exact Hheap|]. split; [exact Hstore|]. now exists calls.
Qed.

(** X18: the block of [getOwners] that inspects the awaited object lets a
    directory listing, an object without [content] and a [content] that is
    not a string fall through, throws what [yaml.load] throws, and for a
    file payload returns the [approvers] array of the decoded mapping when
    there is one. *)
Theorem readOwners_shapes (w : World H D) :
  (forall entries, readOwners (Js.Arr entries) w = (Ok None, w))
  /\ (forall props, Js.assoc "content" props = None ->
                    readOwners (Js.Obj props) w = (Ok None, w))
  /\ (forall props v, Js.assoc "content" props = Some v ->
                      Js.typeof v <> "string" ->
                      readOwners (Js.Obj props) w = (Ok None, w))
  /\ (forall props content e,
        Js.assoc "content" props = Some (Js.Str content) ->
        yaml_load (base64_utf8 content) = Throw e ->
        readOwners (Js.Obj props) w = (Throw e, w))
  /\ (forall props content doc approvers,
        Js.assoc "content" props = Some (Js.Str content) ->
        yaml_load (base64_utf8 content) = Ok (Js.Obj doc) ->
        Js.assoc "approvers" doc = Some (Js.Arr approvers) ->
        readOwners (Js.Obj props) w = (Ok (Some approvers), w)).
Proof.
  split; [reflexivity|]. split; [|split; [|split]].
  - intros props Hnone. unfold readOwners, Js.isArray, Js.has. now rewrite Hnone.
  - intros props v Hsome Hty. unfold readOwners, Js.isArray, Js.has, Js.get.
    rewrite Hsome. cbv beta iota delta [default id].
    destruct v; try reflexivity. now destruct Hty.
  - intros props content e Hsome Hthrow.
    unfold readOwners, Js.isArray, Js.has, Js.get.
    rewrite Hsome. cbv beta iota delta [default id]. now rewrite Hthrow.
  - intros props content doc approvers Hsome Hdoc Happrovers.
    rewrite (readOwners_payload w props doc content Hsome Hdoc).
    now rewrite Happrovers.
Qed.

End HostOnlyMore.

(** ** More runs on the scripted host *)

Lemma createFailureIssue_lists_every_id_witness :
  exists p,
    trace (snd (createFailureIssue "stolostron" "config-policy-controller"
                  "open-cluster-management-io" "main" [101; 102] "stale head"
                  None None None Js.Undefined (Mock.world Mock.hub)))
      = [CallIssuesCreate p]
    /\ includes "#102" (IssuesCreate.title p) = true
    /\ includes (bullet "open-cluster-management-io" "config-policy-controller" 102)
         (IssuesCreate.body p) = true.
Proof.
  exact (createFailureIssue_lists_every_id (Mock.world Mock.hub)
           "stolostron" "config-policy-controller" "open-cluster-management-io"
           "main" [101; 102] "stale head" None None None Js.Undefined 102
           (or_intror (or_introl eq_refl))).
Defined.

Lemma createFailureIssue_pr_reference_witness :
  includes "The pull-request (#7) can be reviewed for more information."
    (IssuesCreate.body
       (failure_issue "stolostron" "config-policy-controller"
          "open-cluster-management-io" "main" [101; 102] "stale head" (Some 7)
          None None Js.Undefined)) = true.
Proof.
  destruct (createFailureIssue_pr_reference "stolostron" "config-policy-controller"
              "open-cluster-management-io" "main" [101; 102] "stale head"
              None None Js.Undefined 7 ltac:(lia)) as [Hnotice _].
  apply includes_spec in Hnotice. destruct Hnotice as (pre & post & Hbody).
  apply includes_spec. exists pre, (LF +:+ LF +:+ post). rewrite Hbody.
  unfold pr_notice. now rewrite !append_assoc.
Defined.

Lemma mergePR_success_leaves_record_witness :
  fst (mergePR 1%positive "c0ffee" (Mock.world Mock.hub)) = Ok true
  /\ heap (snd (mergePR 1%positive "c0ffee" (Mock.world Mock.hub))) !! 1%positive
       = Some Mock.pending
  /\ count is_store_write
       (trace (snd (mergePR 1%positive "c0ffee" (Mock.world Mock.hub)))) = 0%nat.
Proof.
  edestruct (mergePR_success_leaves_record (Mock.world Mock.hub) 1%positive
               Mock.pending "c0ffee")
    as (Hres & Hheap & _ & Htrace); [reflexivity..|].
  split; [exact Hres|]. split; [now rewrite Hheap | now rewrite Htrace].
Defined.

Lemma mergePR_result_meaning_witness :
  fst (mergePR 1%positive "c0ffee" (Mock.world Mock.hub)) = Ok true.
Proof.
  destruct (mergePR_result_meaning (Mock.world Mock.hub) 1%positive
              Mock.pending "c0ffee" eq_refl) as [[_ Htrue] _].
  apply Htrue. now eexists _, _.
Defined.

Lemma mergePR_store_failure_keeps_mutation_witness :
  (exists e, fst (mergePR 1%positive "beef" (MockFaults.world Mock.hub)) = Throw e)
  /\ heap (snd (mergePR 1%positive "beef" (MockFaults.world Mock.hub))) !! 1%positive
       = Some (blocked_by 12 Mock.pending).
Proof.
  edestruct (mergePR_store_failure_keeps_mutation (MockFaults.world Mock.hub)
               1%positive Mock.pending "beef")
    as (Hres & Hheap & _); [reflexivity..|].
  split; [eexists; exact Hres | exact Hheap].
Defined.

Lemma mergePR_frame_witness :
  heap (snd (mergePR 1%positive "beef" (MockFaults.two_records Mock.hub))) !! 2%positive
    = Some MockFaults.other_pending.
Proof.
  rewrite (mergePR_frame (MockFaults.two_records Mock.hub) 1%positive 2%positive
             "beef" ltac:(lia)).
  reflexivity.
Defined.

Lemma mergePR_issue_reports_error_witness :
  exists issue rest,
    trace (snd (mergePR 1%positive "beef" (Mock.world Mock.hub)))
      = CallPullsMerge (merge_request Mock.pending "beef")
          :: CallIssuesCreate issue :: rest
    /\ IssuesCreate.assignees issue = Some ["alice"]
    /\ includes "HttpError: Head branch was modified. Review and try the merge again."
         (IssuesCreate.body issue) = true.
Proof.
  edestruct (mergePR_issue_reports_error (Mock.world Mock.hub) 1%positive
               Mock.pending "beef")
    as (issue & rest & Htrace & _ & _ & Hassignees & Hbody & _); [reflexivity..|].
  exists issue, rest. split; [exact Htrace|]. split; [exact Hassignees | exact Hbody].
Defined.

Lemma mergePR_retries_blocked_record_witness :
  exists rest,
    trace (snd (mergePR 1%positive "c0ffee"
                  (snd (mergePR 1%positive "beef" (Mock.world Mock.hub)))))
      = (trace (snd (mergePR 1%positive "beef" (Mock.world Mock.hub)))
           ++ CallPullsMerge (merge_request Mock.pending "c0ffee") :: rest)%list.
Proof.
  edestruct (mergePR_retries_blocked_record (Mock.world Mock.hub) 1%positive
               Mock.pending "beef" "c0ffee") as [_ Hagain]; [reflexivity..|].
  exact Hagain.
Defined.

Lemma getRequiredChecks_keeps_contexts_witness :
  fst (getRequiredChecks "stolostron" "config-policy-controller" "main"
         (Mock.world MockFaults.strict_hub)) = Ok ["lint"; "test"; "e2e"].
Proof.
  edestruct (getRequiredChecks_keeps_contexts (Mock.world MockFaults.strict_hub)
               "stolostron" "config-policy-controller" "main")
    as (s & Hres & _ & _ & Horder); [reflexivity..|].
  rewrite Hres. f_equal. apply Horder.
  repeat (apply NoDup_cons; split;
          [rewrite list_elem_of_In; cbn; intuition discriminate|]).
  apply NoDup_nil_2.
Defined.

Lemma host_only_operations_witness :
  heap (after (OpUpdatePR "stolostron" "config-policy-controller" 7 ["bob"]
                 "Closes #3.") (Mock.world Mock.hub))
    = heap (Mock.world Mock.hub)
  /\ store (after (OpUpdatePR "stolostron" "config-policy-controller" 7 ["bob"]
                     "Closes #3.") (Mock.world Mock.hub)) = ∅.
Proof.
  destruct (host_only_operations
              (OpUpdatePR "stolostron" "config-policy-controller" 7 ["bob"]
                 "Closes #3.")
              (Mock.world Mock.hub) ltac:(discriminate))
    as (Hheap & Hstore & _).
  split; [exact Hheap | exact Hstore].
Defined.

(** C1, counterexample: the host rejects the merge, but [mergePR] does not
    end with a blocked, persisted record and [false].  With issues
    disabled on the fork, [createFailureIssue] throws: [mergePR] throws
    too, the record is still [Pending] without an issue and the store is
    not written.  With a database that refuses the write, the issue is
    created and [mergePR] throws the database's error instead of
    returning [false]. *)
Lemma mergePR_failed_merge_without_block :
  let w := Mock.world (Mock.with_issues false Mock.hub) in
  let w' := MockFaults.world Mock.hub in
  fst (pulls_merge (merge_request Mock.pending "beef") (host w))
    = Throw (Mock.http_error "Head branch was modified. Review and try the merge again.")
  /\ fst (mergePR 1%positive "beef" w)
       = Throw (Mock.http_error "Issues are disabled for this repo")
  /\ fst (mergePR 1%positive "beef" w) <> Ok false
  /\ heap (snd (mergePR 1%positive "beef" w)) !! 1%positive = Some Mock.pending
  /\ Db.action Mock.pending = Db.Pending
  /\ Db.githubIssue Mock.pending = None
  /\ count is_store_write (trace (snd (mergePR 1%positive "beef" w))) = 0%nat
  /\ fst (pulls_merge (merge_request Mock.pending "beef") (host w'))
       = Throw (Mock.http_error "Head branch was modified. Review and try the merge again.")
  /\ fst (mergePR 1%positive "beef" w')
       = Throw (Js.Err "Error" "SQLITE_READONLY: attempt to write a readonly database")
  /\ fst (mergePR 1%positive "beef" w') <> Ok false.
Proof. repeat split; discriminate. Qed.
